(** * Event routing and delivery of the session-synchronization server

    A shallow embedding of the event router (connection registry, recipient
    filter, emission loop) and of the payload builders, followed by the
    properties established about them.

    Conventions.
    - A JavaScript object that is compared by identity (a client connection,
      a socket, a [Set]) is represented by a reference; its fields are read
      through a store.
    - [Map<string, Set<ClientConnection>>] is a finite map from user ids to
      references of [Set] objects, the objects themselves living in a heap,
      so that the aliasing between the registry, the local variables of the
      router's methods and the values handed out by [getConnections] is
      explicit.
    - A [Set] object is its list of entries in insertion order, where a
      deleted entry leaves an emptied slot behind: this is the representation
      under which iteration of a set that changes during the iteration is
      defined. *)

From stdpp Require Import base option list gmap strings.
From Stdlib Require Import Floats Lia.

Local Open Scope string_scope.
Local Open Scope list_scope.
Local Open Scope nat_scope.

(** ** Connections *)

(** Identity of a connection object and of a socket object. *)
Abbreviation ConnRef := nat (only parsing).
Abbreviation Socket := nat (only parsing).

(** [ClientConnection]: the union of the three interfaces, discriminated by
    [connectionType]. *)
Inductive ConnectionType :=
  | session_scoped
  | user_scoped
  | machine_scoped.

Inductive ClientConnection :=
  | SessionScopedConnection (socket : Socket) (userId : string) (sessionId : string)
  | UserScopedConnection (socket : Socket) (userId : string)
  | MachineScopedConnection (socket : Socket) (userId : string) (machineId : string).

Definition connectionType (c : ClientConnection) : ConnectionType :=
  match c with
  | SessionScopedConnection _ _ _ => session_scoped
  | UserScopedConnection _ _ => user_scoped
  | MachineScopedConnection _ _ _ => machine_scoped
  end.

Definition socket (c : ClientConnection) : Socket :=
  match c with
  | SessionScopedConnection s _ _ => s
  | UserScopedConnection s _ => s
  | MachineScopedConnection s _ _ => s
  end.

Definition userId (c : ClientConnection) : string :=
  match c with
  | SessionScopedConnection _ u _ => u
  | UserScopedConnection _ u => u
  | MachineScopedConnection _ u _ => u
  end.

#[global] Instance ConnectionType_eq_dec : EqDecision ConnectionType.
Proof. solve_decision. Defined.

(** ** Recipient filters *)

Inductive RecipientFilter :=
  | all_interested_in_session (sessionId : string)
  | user_scoped_only
  | all_user_authenticated_connections.

(** [EventRouter.shouldSendToConnection].  The [switch] is over the three
    variants of the filter type; the [default] arm of the source is not
    reachable for a value of that type. *)
Definition shouldSendToConnection
    (connection : ClientConnection) (filter : RecipientFilter) : bool :=
  match filter with
  | all_interested_in_session sid =>
      match connection with
      | SessionScopedConnection _ _ csid =>
          if bool_decide (csid ≠ sid) then false else true
      | MachineScopedConnection _ _ _ => false
      | UserScopedConnection _ _ => true
      end
  | user_scoped_only =>
      bool_decide (connectionType connection = user_scoped)
  | all_user_authenticated_connections => true
  end.

(** ** JavaScript [Set] objects holding connections

    The entries of a [Set] in insertion order.  [delete] empties the slot of
    the entry and [add] appends a new slot, so that the position of an
    iterator stays meaningful while the set changes. *)
Abbreviation SetData := (list (option ConnRef)) (only parsing).

(** The members, in insertion order (what an iteration from the start of an
    unchanging set yields). *)
Definition set_values (d : SetData) : list ConnRef := omap (λ e, e) d.

Definition set_has (d : SetData) (c : ConnRef) : bool :=
  bool_decide (Some c ∈ d).

Definition set_add (c : ConnRef) (d : SetData) : SetData :=
  if set_has d c then d else d ++ [Some c].

Definition set_delete (c : ConnRef) (d : SetData) : SetData :=
  (λ e, if bool_decide (e = Some c) then None else e) <$> d.

Definition set_size (d : SetData) : nat := length (set_values d).

(** ** The registry *)

(** Reference of a [Set] object: its index in the heap of sets. *)
Abbreviation SetRef := nat (only parsing).

(** The state of an [EventRouter]: the private [userConnections] map, and the
    heap holding the [Set] objects the map refers to. *)
Record EventRouter := mkRouter {
  userConnections : gmap string SetRef;
  sets : list SetData
}.

(** [new EventRouter()]. *)
Definition new_EventRouter : EventRouter :=
  {| userConnections := ∅; sets := [] |}.

(** The entries of the set object [l] (a reference that was never allocated
    has none; the router never holds one). *)
Definition set_at (r : EventRouter) (l : SetRef) : SetData :=
  default [] (sets r !! l).

(** [EventRouter.addConnection]. *)
Definition addConnection (uid : string) (connection : ConnRef)
    (r : EventRouter) : EventRouter :=
  let r1 :=
    if bool_decide (userConnections r !! uid = None)
    then {| userConnections := <[uid := length (sets r)]> (userConnections r);
            sets := sets r ++ [ [] ] |}
    else r in
  match userConnections r1 !! uid with
  | Some l => {| userConnections := userConnections r1;
                 sets := alter (set_add connection) l (sets r1) |}
  | None => r1
  end.

(** [EventRouter.removeConnection]. *)
Definition removeConnection (uid : string) (connection : ConnRef)
    (r : EventRouter) : EventRouter :=
  match userConnections r !! uid with
  | Some l =>
      let r1 := {| userConnections := userConnections r;
                   sets := alter (set_delete connection) l (sets r) |} in
      if bool_decide (set_size (set_at r1 l) = 0)
      then {| userConnections := delete uid (userConnections r1);
              sets := sets r1 |}
      else r1
  | None => r
  end.

(** [EventRouter.getConnections]: the set object itself, or [undefined]. *)
Definition getConnections (uid : string) (r : EventRouter) : option SetRef :=
  userConnections r !! uid.

(** The connections registered under a user, read through [getConnections]. *)
Definition connections_of (uid : string) (r : EventRouter) : list ConnRef :=
  match getConnections uid r with
  | Some l => set_values (set_at r l)
  | None => []
  end.

(** Calls of the two mutators, and their execution in sequence. *)
Inductive RegistryCall :=
  | call_addConnection (uid : string) (connection : ConnRef)
  | call_removeConnection (uid : string) (connection : ConnRef).

Definition run_call (c : RegistryCall) (r : EventRouter) : EventRouter :=
  match c with
  | call_addConnection u k => addConnection u k r
  | call_removeConnection u k => removeConnection u k r
  end.

Definition run_calls (cs : list RegistryCall) (r : EventRouter) : EventRouter :=
  foldl (λ acc c, run_call c acc) r cs.

(** ** Payloads *)

(** The JavaScript values that occur in payloads.  A number is a binary64
    floating-point value; an object is its list of properties in creation
    order. *)
#[warnings="-register-all"]
Inductive JsValue :=
  | js_undefined
  | js_null
  | js_boolean (b : bool)
  | js_number (x : float)
  | js_string (s : string)
  | js_object (properties : list (string * JsValue)).

(** [UpdatePayload]: the envelope of a persistent event; [body] holds the
    discriminator [t] and the remaining properties. *)
Record UpdatePayload := mkUpdatePayload {
  payload_id : string;
  payload_seq : float;
  payload_body : list (string * JsValue);
  payload_createdAt : float
}.

(** [EphemeralPayload]: [type] and the remaining properties. *)
Definition EphemeralPayload := list (string * JsValue).

(** What [emit] receives as [payload]. *)
Inductive Payload :=
  | update_payload (p : UpdatePayload)
  | ephemeral_payload (p : EphemeralPayload).

Inductive EventName :=
  | update
  | ephemeral.

(** ** The world around the router *)

(** One call [connection.socket.emit(eventName, payload)]: the socket written
    to, the event tag and the payload, together with the connection object
    through which the socket was reached. *)
Record Delivery := mkDelivery {
  via : ConnRef;
  channel : Socket;
  eventName : EventName;
  data : Payload
}.

(** One call of [log]. *)
Record LogEntry := mkLogEntry {
  log_module : string;
  log_level : string;
  log_message : string
}.

Record World := mkWorld {
  router : EventRouter;
  wire : list Delivery;
  diagnostics : list LogEntry
}.

(** What a socket does to the router, synchronously, when it is written to
    (for instance a transport that notices its peer is gone and runs the
    disconnect handler).  The socket library is not part of the router, so
    its behaviour is a parameter of the emission. *)
Definition Reaction := Socket → EventName → Payload → EventRouter → EventRouter.

(** A socket whose [emit] only queues the packet. *)
Definition fire_and_forget : Reaction := λ _ _ _ r, r.

(** [connection.socket.emit(eventName, payload)]. *)
Definition socket_emit (objects : ConnRef → ClientConnection) (react : Reaction)
    (connection : ConnRef) (ev : EventName) (p : Payload) (w : World) : World :=
  let s := socket (objects connection) in
  {| router := react s ev p (router w);
     wire := wire w ++ [ {| via := connection; channel := s;
                            eventName := ev; data := p |} ];
     diagnostics := diagnostics w |}.

(** [log({ module: 'websocket', level: 'warn' }, ...)]. *)
Definition log_warn (message : string) (w : World) : World :=
  {| router := router w;
     wire := wire w;
     diagnostics := diagnostics w ++
       [ {| log_module := "websocket"; log_level := "warn";
            log_message := message |} ] |}.

(** ** Emission *)

(** The [for (const connection of connections)] loop of [EventRouter.emit].
    [l] is the set object held in the local variable [connections] and
    [index] the position of the set iterator; each round reads the entry at
    that position from the set as it is at that moment.  The loop of the
    source need not terminate when sockets keep registering connections, so
    the number of rounds is bounded by [fuel]; [None] means the bound was
    reached. *)
Fixpoint emit_loop (objects : ConnRef → ClientConnection) (react : Reaction)
    (fuel : nat) (l : SetRef) (index : nat)
    (ev : EventName) (p : Payload) (recipientFilter : RecipientFilter)
    (skipSenderConnection : option ConnRef) (w : World) : option World :=
  match fuel with
  | 0 => None
  | S fuel' =>
      match set_at (router w) l !! index with
      | None => Some w
      | Some None =>
          emit_loop objects react fuel' l (S index) ev p recipientFilter
            skipSenderConnection w
      | Some (Some connection) =>
          if bool_decide (skipSenderConnection = Some connection) then
            emit_loop objects react fuel' l (S index) ev p recipientFilter
              skipSenderConnection w
          else if negb (shouldSendToConnection (objects connection) recipientFilter) then
            emit_loop objects react fuel' l (S index) ev p recipientFilter
              skipSenderConnection w
          else
            emit_loop objects react fuel' l (S index) ev p recipientFilter
              skipSenderConnection (socket_emit objects react connection ev p w)
      end
  end.

(** [EventRouter.emit]. *)
Definition emit (objects : ConnRef → ClientConnection) (react : Reaction)
    (fuel : nat) (uid : string) (ev : EventName) (p : Payload)
    (recipientFilter : RecipientFilter)
    (skipSenderConnection : option ConnRef) (w : World) : option World :=
  match userConnections (router w) !! uid with
  | None => Some (log_warn ("No connections found for user " +:+ uid) w)
  | Some l =>
      emit_loop objects react fuel l 0 ev p recipientFilter
        skipSenderConnection w
  end.

(** [EventRouter.emitUpdate]. *)
Definition emitUpdate (objects : ConnRef → ClientConnection) (react : Reaction)
    (fuel : nat) (uid : string) (p : UpdatePayload)
    (recipientFilter : option RecipientFilter)
    (skipSenderConnection : option ConnRef) (w : World) : option World :=
  emit objects react fuel uid update (update_payload p)
    (default all_user_authenticated_connections recipientFilter)
    skipSenderConnection w.

(** [EventRouter.emitEphemeral]. *)
Definition emitEphemeral (objects : ConnRef → ClientConnection) (react : Reaction)
    (fuel : nat) (uid : string) (p : EphemeralPayload)
    (recipientFilter : option RecipientFilter)
    (skipSenderConnection : option ConnRef) (w : World) : option World :=
  emit objects react fuel uid ephemeral (ephemeral_payload p)
    (default all_user_authenticated_connections recipientFilter)
    skipSenderConnection w.

(** Either entry point, as one call. *)
Inductive Emission :=
  | call_emitUpdate (p : UpdatePayload)
  | call_emitEphemeral (p : EphemeralPayload).

Definition emission (objects : ConnRef → ClientConnection) (react : Reaction)
    (fuel : nat) (uid : string) (e : Emission)
    (recipientFilter : option RecipientFilter)
    (skipSenderConnection : option ConnRef) (w : World) : option World :=
  match e with
  | call_emitUpdate p =>
      emitUpdate objects react fuel uid p recipientFilter skipSenderConnection w
  | call_emitEphemeral p =>
      emitEphemeral objects react fuel uid p recipientFilter skipSenderConnection w
  end.

Definition emission_event (e : Emission) : EventName :=
  match e with
  | call_emitUpdate _ => update
  | call_emitEphemeral _ => ephemeral
  end.

Definition emission_payload (e : Emission) : Payload :=
  match e with
  | call_emitUpdate p => update_payload p
  | call_emitEphemeral p => ephemeral_payload p
  end.

(** The writes an emission makes when it visits the connections [cs] in
    order: one for each connection that is not the sender and passes the
    filter. *)
Definition deliveries (objects : ConnRef → ClientConnection)
    (ev : EventName) (p : Payload) (recipientFilter : RecipientFilter)
    (skipSenderConnection : option ConnRef) (cs : list ConnRef) : list Delivery :=
  (λ c, {| via := c; channel := socket (objects c); eventName := ev; data := p |})
    <$> filter (λ c, skipSenderConnection ≠ Some c ∧
                     shouldSendToConnection (objects c) recipientFilter = true) cs.

(** How many of the writes [ds] went through connection [c]. *)
Definition delivered_to (c : ConnRef) (ds : list Delivery) : nat :=
  length (filter (λ d, via d = c) ds).

(** How many of the writes [ds] were made on socket [s]. *)
Definition written_on (s : Socket) (ds : list Delivery) : nat :=
  length (filter (λ d, channel d = s) ds).

(** Among the connections [cs], the socket of [c] belongs to [c] alone. *)
Definition owns_socket (objects : ConnRef → ClientConnection)
    (cs : list ConnRef) (c : ConnRef) : Prop :=
  ∀ c', c' ∈ cs → socket (objects c') = socket (objects c) → c' = c.

(** The router after the sockets have reacted to the writes [written], in
    order. *)
Definition reactions (react : Reaction) (written : list Delivery)
    (r : EventRouter) : EventRouter :=
  foldl (λ acc d, react (channel d) (eventName d) (data d) acc) r written.

(** An amount of fuel that lets the loop over the set of [uid] reach the end
    of the entries the set has in [r]. *)
Definition rounds (uid : string) (r : EventRouter) : nat :=
  match userConnections r !! uid with
  | Some l => S (length (set_at r l))
  | None => 0
  end.

(** ** Payload builders *)

(** A [Date]: its time value (milliseconds since the epoch, as a number),
    read by [getTime]. *)
Record Date := mkDate { getTime : float }.

(** The session record [buildNewSessionUpdate] receives. *)
Record SessionRecord := mkSessionRecord {
  session_id : string;
  session_seq : float;
  session_metadata : string;
  session_metadataVersion : float;
  session_agentState : option string;
  session_agentStateVersion : float;
  session_active : bool;
  session_lastActiveAt : Date;
  session_createdAt : Date;
  session_updatedAt : Date
}.

(** The message record [buildNewMessageUpdate] receives. *)
Record MessageRecord := mkMessageRecord {
  message_id : string;
  message_seq : float;
  message_content : JsValue;
  message_localId : option string;
  message_createdAt : Date;
  message_updatedAt : Date
}.

(** A value of type [string | null]. *)
Definition js_string_or_null (o : option string) : JsValue :=
  match o with
  | Some s => js_string s
  | None => js_null
  end.

(** [buildNewSessionUpdate]; [now] is what [Date.now()] reads. *)
Definition buildNewSessionUpdate (session : SessionRecord)
    (updateSeq : float) (updateId : string) (now : float) : UpdatePayload :=
  {| payload_id := updateId;
     payload_seq := updateSeq;
     payload_body :=
       [ ("t", js_string "new-session");
         ("id", js_string (session_id session));
         ("seq", js_number (session_seq session));
         ("metadata", js_string (session_metadata session));
         ("metadataVersion", js_number (session_metadataVersion session));
         ("agentState", js_string_or_null (session_agentState session));
         ("agentStateVersion", js_number (session_agentStateVersion session));
         ("active", js_boolean (session_active session));
         ("activeAt", js_number (getTime (session_lastActiveAt session)));
         ("createdAt", js_number (getTime (session_createdAt session)));
         ("updatedAt", js_number (getTime (session_updatedAt session))) ];
     payload_createdAt := now |}.

(** [buildNewMessageUpdate]; [now] is what [Date.now()] reads. *)
Definition buildNewMessageUpdate (message : MessageRecord) (sessionId : string)
    (updateSeq : float) (updateId : string) (now : float) : UpdatePayload :=
  {| payload_id := updateId;
     payload_seq := updateSeq;
     payload_body :=
       [ ("t", js_string "new-message");
         ("sid", js_string sessionId);
         ("message", js_object
            [ ("id", js_string (message_id message));
              ("seq", js_number (message_seq message));
              ("content", message_content message);
              ("localId", js_string_or_null (message_localId message));
              ("createdAt", js_number (getTime (message_createdAt message)));
              ("updatedAt", js_number (getTime (message_updatedAt message))) ]) ];
     payload_createdAt := now |}.

(** Reading a property of an object (the first one of that name). *)
Fixpoint property (key : string) (ps : list (string * JsValue)) : option JsValue :=
  match ps with
  | [] => None
  | (k, v) :: rest => if bool_decide (k = key) then Some v else property key rest
  end.

(** ** The declared event shapes, and the specification's reading of them *)

(** The discriminators of the [UpdateEvent] type. *)
Inductive UpdateEventType :=
  | new_message
  | new_session
  | update_session
  | update_account
  | update_machine.

Definition UpdateEvent_tag (t : UpdateEventType) : string :=
  match t with
  | new_message => "new-message"
  | new_session => "new-session"
  | update_session => "update-session"
  | update_account => "update-account"
  | update_machine => "update-machine"
  end.

(** The properties each variant of the [UpdateEvent] type declares next to
    its discriminator, in the order of the declaration. *)
Definition UpdateEvent_properties (t : UpdateEventType) : list string :=
  match t with
  | new_message => ["sessionId"; "message"]
  | new_session =>
      ["sessionId"; "seq"; "metadata"; "metadataVersion"; "agentState";
       "agentStateVersion"; "active"; "activeAt"; "createdAt"; "updatedAt"]
  | update_session => ["sessionId"; "metadata"; "agentState"]
  | update_account => ["userId"; "settings"]
  | update_machine => ["machineId"; "metadata"; "daemonState"; "activeAt"]
  end.

(** The [message] object of the [new-message] variant for a message record:
    the record's fields, the two dates as epoch milliseconds. *)
Definition UpdateEvent_message (message : MessageRecord) : JsValue :=
  js_object
    [ ("id", js_string (message_id message));
      ("seq", js_number (message_seq message));
      ("content", message_content message);
      ("localId", js_string_or_null (message_localId message));
      ("createdAt", js_number (getTime (message_createdAt message)));
      ("updatedAt", js_number (getTime (message_updatedAt message))) ].

(** The body the specification describes for a new message: the tag [t]
    and the properties of the [new-message] variant of [UpdateEvent]. *)
Definition spec_new_message_body (message : MessageRecord) (sessionId : string)
    : list (string * JsValue) :=
  [ ("t", js_string (UpdateEvent_tag new_message));
    ("sessionId", js_string sessionId);
    ("message", UpdateEvent_message message) ].



(** ** The shape of the registry

    What holds of a registry that only [addConnection] and
    [removeConnection] have touched: every key refers to an allocated set,
    no two keys refer to the same set, the set of a key has a member, and no
    set lists a connection twice. *)
Record registry_ok (r : EventRouter) : Prop := mkRegistryOk {
  ok_allocated : ∀ u l, userConnections r !! u = Some l → l < length (sets r);
  ok_separate : ∀ u1 u2 l,
    userConnections r !! u1 = Some l → userConnections r !! u2 = Some l → u1 = u2;
  ok_inhabited : ∀ u l,
    userConnections r !! u = Some l → set_values (set_at r l) ≠ [];
  ok_distinct : ∀ l d, sets r !! l = Some d → NoDup (set_values d)
}.

(** Whether a call registers connection [c] under [uid], and whether it
    registers any connection under [uid]. *)
Definition registers (uid : string) (c : ConnRef) (call : RegistryCall) : bool :=
  match call with
  | call_addConnection u k => bool_decide (u = uid ∧ k = c)
  | call_removeConnection _ _ => false
  end.

Definition registers_under (uid : string) (call : RegistryCall) : bool :=
  match call with
  | call_addConnection u _ => bool_decide (u = uid)
  | call_removeConnection _ _ => false
  end.

(** ** A small installation, for the examples

    One user with a session-scoped connection for session [s1] (object 1), a
    session-scoped connection for session [s2] (object 2), a machine-scoped
    connection (object 3) and user-scoped connections (every other object);
    each connection has a socket of its own. *)
Definition example_objects (c : ConnRef) : ClientConnection :=
  match c with
  | 1 => SessionScopedConnection 1 "u1" "s1"
  | 2 => SessionScopedConnection 2 "u1" "s2"
  | 3 => MachineScopedConnection 3 "u1" "m1"
  | n => UserScopedConnection n "u1"
  end.

Definition example_calls : list RegistryCall :=
  [ call_addConnection "u1" 1; call_addConnection "u1" 2;
    call_addConnection "u1" 4 ].

Definition example_update : UpdatePayload :=
  {| payload_id := "upd-1"; payload_seq := 7%float;
     payload_body := [ ("t", js_string "update-account"); ("id", js_string "u1") ];
     payload_createdAt := 1700000000000%float |}.

(** The usage payload of the specification's scenario: ten input tokens, a
    cost of 0.001 (the nearest binary64 value). *)
Definition example_usage : EphemeralPayload :=
  [ ("type", js_string "usage"); ("id", js_string "s1"); ("key", js_string "k");
    ("tokens", js_object [ ("input", js_number 10%float) ]);
    ("cost", js_object [ ("usd", js_number 0x1.0624dd2f1a9fcp-10%float) ]);
    ("timestamp", js_number 1700000000000%float) ].

(** A socket library under which writing to the socket of connection 1 runs
    the disconnect handler of connection 2 before returning. *)
Definition example_disconnecting : Reaction :=
  λ s _ _ r, if bool_decide (s = 1) then removeConnection "u1" 2 r else r.

(** A socket library under which every write makes the registry forget the
    key of user [u1], the set objects staying as they are. *)
Definition example_forgetting : Reaction :=
  λ _ _ _ r, {| userConnections := delete "u1" (userConnections r);
                sets := sets r |}.

(** A socket library under which writing to the socket of connection 1
    registers connection 7 for the same user before returning. *)
Definition example_connecting : Reaction :=
  λ s _ _ r, if bool_decide (s = 1) then addConnection "u1" 7 r else r.

Definition example_world : World :=
  {| router := run_calls example_calls new_EventRouter;
     wire := []; diagnostics := [] |}.

Definition example_message : MessageRecord :=
  {| message_id := "m1"; message_seq := 3%float;
     message_content := js_object [ ("c", js_string "hello") ];
     message_localId := None;
     message_createdAt := {| getTime := 1700000000000%float |};
     message_updatedAt := {| getTime := 1700000000500%float |} |}.

(** ** The registry, seen from its callers *)

(** Whether the last of the calls that names connection [c] under [uid] is
    an [addConnection] (no such call: not registered). *)
Definition registered_after (uid : string) (c : ConnRef)
    (calls : list RegistryCall) : bool :=
  foldl (λ acc call,
           match call with
           | call_addConnection u k =>
               if bool_decide (u = uid ∧ k = c) then true else acc
           | call_removeConnection u k =>
               if bool_decide (u = uid ∧ k = c) then false else acc
           end) false calls.

(** ** Filters as the [switch] sees them

    At run time a filter is an object with a [type] string and, for some
    types, a [sessionId]; the [switch] of [shouldSendToConnection] compares
    the string and has a [default] arm for a string it does not know. *)
Record FilterObject := mkFilterObject {
  filter_type : string;
  filter_sessionId : option string
}.

(** [EventRouter.shouldSendToConnection] on any filter object. *)
Definition shouldSendToConnection_object
    (connection : ClientConnection) (filter : FilterObject) : bool :=
  if bool_decide (filter_type filter = "all-interested-in-session") then
    match connection with
    | SessionScopedConnection _ _ csid =>
        if bool_decide (Some csid ≠ filter_sessionId filter) then false else true
    | MachineScopedConnection _ _ _ => false
    | UserScopedConnection _ _ => true
    end
  else if bool_decide (filter_type filter = "user-scoped-only") then
    bool_decide (connectionType connection = user_scoped)
  else if bool_decide (filter_type filter = "all-user-authenticated-connections") then
    true
  else false.

(** The object a value of the [RecipientFilter] type is. *)
Definition filter_object (f : RecipientFilter) : FilterObject :=
  match f with
  | all_interested_in_session sid =>
      {| filter_type := "all-interested-in-session"; filter_sessionId := Some sid |}
  | user_scoped_only =>
      {| filter_type := "user-scoped-only"; filter_sessionId := None |}
  | all_user_authenticated_connections =>
      {| filter_type := "all-user-authenticated-connections";
         filter_sessionId := None |}
  end.

(** ** What routing reads of a connection *)

(** The same connection with the [userId] and [machineId] fields blanked. *)
Definition without_owner (c : ClientConnection) : ClientConnection :=
  match c with
  | SessionScopedConnection s _ sid => SessionScopedConnection s "" sid
  | UserScopedConnection s _ => UserScopedConnection s ""
  | MachineScopedConnection s _ _ => MachineScopedConnection s "" ""
  end.

(** What is true of every write [d] an emission with tag [ev], payload [p],
    filter [f] and sender to skip [skip] can make. *)
Definition permitted (objects : ConnRef → ClientConnection)
    (ev : EventName) (p : Payload) (f : RecipientFilter)
    (skip : option ConnRef) (d : Delivery) : Prop :=
  d = {| via := via d; channel := socket (objects (via d));
         eventName := ev; data := p |} ∧
  skip ≠ Some (via d) ∧
  shouldSendToConnection (objects (via d)) f = true.

(** ** The activity builder *)

(** [buildSessionActivityEphemeral]; [thinking] is [None] when the argument
    is left out. *)
Definition buildSessionActivityEphemeral (sessionId : string) (active : bool)
    (activeAt : float) (thinking : option bool) : EphemeralPayload :=
  [ ("type", js_string "activity");
    ("id", js_string sessionId);
    ("active", js_boolean active);
    ("activeAt", js_number activeAt);
    ("thinking", js_boolean (match thinking with
                             | Some true => true
                             | _ => false
                             end)) ].

(** ** Sockets that react

    A socket that reacts to a write can reach the registry through the two
    mutators only; a handler gives the calls it makes, which may depend on
    the socket, the event, the payload and the registry as it is. *)
Definition Handler := Socket → EventName → Payload → EventRouter → list RegistryCall.

Definition reaction_of (h : Handler) : Reaction :=
  λ s ev q r, run_calls (h s ev q r) r.


(** While the writes [ds] are made in order, starting from the router [r],
    the sockets leave the set object [l] alone: after any number of these
    writes, and of the reactions to them, the set has the entries it had. *)
Definition undisturbed (react : Reaction) (l : SetRef) (ds : list Delivery)
    (r : EventRouter) : Prop :=
  ∀ k : nat, set_at (reactions react (take k ds) r) l = set_at r l.



(** Connection [C] is not in the set object [l], which is allocated and is
    the set of no user but [U]. *)
Definition kept_out (U : string) (C : ConnRef) (l : SetRef) (r : EventRouter) : Prop :=
  registry_ok r ∧ (l < length (sets r)) ∧
  (C ∉ set_values (set_at r l)) ∧
  (∀ u, userConnections r !! u = Some l → u = U).



(** Handlers: writing to the socket of connection 1 disconnects connection
    2; writing to the socket of connection 1 registers connection 7. *)
Definition example_disconnect_handler : Handler :=
  λ s _ _ _, if bool_decide (s = 1) then [call_removeConnection "u1" 2] else [].

Definition example_connect_handler : Handler :=
  λ s _ _ _, if bool_decide (s = 1) then [call_addConnection "u1" 7] else [].

(** * Properties *)

(** ** Sets *)

Lemma set_values_snoc (d : SetData) (e : option ConnRef) :
  set_values (d ++ [e]) = set_values d ++ from_option (λ c, [c]) [] e.
Proof.
  unfold set_values. rewrite omap_app. by destruct e.
Qed.

Lemma elem_of_set_values (d : SetData) (c : ConnRef) :
  c ∈ set_values d ↔ Some c ∈ d.
Proof.
  unfold set_values. rewrite list_elem_of_omap. split.
  - by intros (x & Hx & ->).
  - intros H. by exists (Some c).
Qed.

Lemma set_values_add (c : ConnRef) (d : SetData) :
  set_values (set_add c d) =
  if bool_decide (c ∈ set_values d) then set_values d else set_values d ++ [c].
Proof.
  unfold set_add, set_has.
  rewrite (bool_decide_ext _ _ (elem_of_set_values d c)).
  case_bool_decide; [done|]. by rewrite set_values_snoc.
Qed.

Lemma set_values_delete (c : ConnRef) (d : SetData) :
  set_values (set_delete c d) = filter (λ x, x ≠ c) (set_values d).
Proof.
  induction d as [|[x|] d IH]; [done| |exact IH].
  change (set_values (set_delete c (Some x :: d)))
    with (set_values ((if bool_decide (Some x = Some c) then None else Some x)
                        :: set_delete c d)).
  change (set_values (Some x :: d)) with (x :: set_values d).
  case_bool_decide as Hx.
  - simplify_eq. rewrite filter_cons_False; [exact IH|]. by intros [].
  - rewrite filter_cons_True; [|congruence].
    change (x :: set_values (set_delete c d) = x :: filter (λ y, y ≠ c) (set_values d)).
    by rewrite IH.
Qed.

Lemma length_set_delete (c : ConnRef) (d : SetData) :
  length (set_delete c d) = length d.
Proof. unfold set_delete. by rewrite length_fmap. Qed.

Lemma NoDup_set_add (c : ConnRef) (d : SetData) :
  NoDup (set_values d) → NoDup (set_values (set_add c d)).
Proof.
  intros Hd. rewrite set_values_add. case_bool_decide as Hc; [done|].
  apply NoDup_app. split_and!; [done| |apply NoDup_singleton].
  intros x Hx ->%list_elem_of_singleton. done.
Qed.

Lemma NoDup_set_delete (c : ConnRef) (d : SetData) :
  NoDup (set_values d) → NoDup (set_values (set_delete c d)).
Proof. intros Hd. rewrite set_values_delete. by apply NoDup_filter. Qed.

Lemma set_values_add_inhabited (c : ConnRef) (d : SetData) :
  set_values (set_add c d) ≠ [].
Proof.
  rewrite set_values_add. case_bool_decide as Hc.
  - intros Hnil. rewrite Hnil in Hc. by apply not_elem_of_nil in Hc.
  - by destruct (set_values d).
Qed.

(** ** Reading the heap of sets after an update *)

Lemma set_at_alter_eq (f : SetData → SetData) (m : gmap string SetRef)
    (s : list SetData) (l : SetRef) :
  l < length s →
  set_at {| userConnections := m; sets := alter f l s |} l =
  f (set_at {| userConnections := m; sets := s |} l).
Proof.
  intros Hl. unfold set_at. cbn [sets].
  rewrite list_lookup_alter_eq.
  destruct (lookup_lt_is_Some_2 s l Hl) as [d Hd]. by rewrite Hd.
Qed.

Lemma set_at_alter_ne (f : SetData → SetData) (m : gmap string SetRef)
    (s : list SetData) (l l' : SetRef) :
  l ≠ l' →
  set_at {| userConnections := m; sets := alter f l s |} l' =
  set_at {| userConnections := m; sets := s |} l'.
Proof.
  intros Hl. unfold set_at. cbn [sets].
  by rewrite list_lookup_alter_ne.
Qed.

Lemma set_at_map_irrelevant (m m' : gmap string SetRef) (s : list SetData) (l : SetRef) :
  set_at {| userConnections := m; sets := s |} l =
  set_at {| userConnections := m'; sets := s |} l.
Proof. done. Qed.

Lemma set_at_unallocated (r : EventRouter) (l : SetRef) :
  length (sets r) ≤ l → set_at r l = [].
Proof.
  intros Hl. unfold set_at. by rewrite (lookup_ge_None_2 (sets r) l Hl).
Qed.

Lemma set_at_eta (r : EventRouter) (l : SetRef) :
  set_at r l = set_at {| userConnections := userConnections r; sets := sets r |} l.
Proof. done. Qed.

(** ** The two mutators, case by case *)

Lemma addConnection_eq (uid : string) (c : ConnRef) (r : EventRouter) :
  addConnection uid c r =
  match userConnections r !! uid with
  | Some l => {| userConnections := userConnections r;
                 sets := alter (set_add c) l (sets r) |}
  | None => {| userConnections := <[uid := length (sets r)]> (userConnections r);
               sets := sets r ++ [ [Some c] ] |}
  end.
Proof.
  unfold addConnection.
  destruct (userConnections r !! uid) as [l|] eqn:Hu.
  - rewrite bool_decide_eq_false_2 by done. by rewrite Hu.
  - rewrite bool_decide_eq_true_2 by done. cbn [userConnections sets].
    rewrite lookup_insert_eq. f_equal.
    by rewrite alter_app_r_alt, Nat.sub_diag by lia.
Qed.

Lemma removeConnection_eq (uid : string) (c : ConnRef) (r : EventRouter) :
  registry_ok r →
  removeConnection uid c r =
  match userConnections r !! uid with
  | Some l =>
      if bool_decide (filter (λ x, x ≠ c) (set_values (set_at r l)) = [])
      then {| userConnections := delete uid (userConnections r);
              sets := alter (set_delete c) l (sets r) |}
      else {| userConnections := userConnections r;
              sets := alter (set_delete c) l (sets r) |}
  | None => r
  end.
Proof.
  intros Hok. unfold removeConnection.
  destruct (userConnections r !! uid) as [l|] eqn:Hu; [|done].
  cbn [userConnections sets].
  rewrite set_at_alter_eq by (by eapply ok_allocated).
  rewrite <- set_at_eta. unfold set_size. rewrite set_values_delete.
  by rewrite (bool_decide_ext _ _ (length_zero_iff_nil _)).
Qed.

(** ** What the mutators do to the set of each user *)

Lemma getConnections_addConnection_other (uid u : string) (c : ConnRef) (r : EventRouter) :
  u ≠ uid →
  getConnections u (addConnection uid c r) = getConnections u r.
Proof.
  intros Hne. rewrite addConnection_eq. unfold getConnections.
  destruct (userConnections r !! uid); cbn; [done|].
  by rewrite lookup_insert_ne.
Qed.

Lemma connections_of_addConnection (uid : string) (c : ConnRef) (r : EventRouter) :
  registry_ok r →
  connections_of uid (addConnection uid c r) =
  if bool_decide (c ∈ connections_of uid r) then connections_of uid r
  else connections_of uid r ++ [c].
Proof.
  intros Hok. rewrite addConnection_eq. unfold connections_of, getConnections.
  destruct (userConnections r !! uid) as [l|] eqn:Hu; cbn [userConnections sets].
  - rewrite Hu. rewrite set_at_alter_eq by (by eapply ok_allocated).
    rewrite <- set_at_eta. apply set_values_add.
  - rewrite lookup_insert_eq. unfold set_at. cbn [sets].
    rewrite lookup_app_r, Nat.sub_diag by lia. cbn.
    rewrite bool_decide_eq_false_2; [done|]. apply not_elem_of_nil.
Qed.

Lemma connections_of_addConnection_other (uid u : string) (c : ConnRef) (r : EventRouter) :
  registry_ok r → u ≠ uid →
  connections_of u (addConnection uid c r) = connections_of u r.
Proof.
  intros Hok Hne. unfold connections_of.
  rewrite getConnections_addConnection_other by done.
  unfold getConnections. destruct (userConnections r !! u) as [l'|] eqn:Hu'; [|done].
  f_equal. rewrite addConnection_eq.
  pose proof (ok_allocated r Hok u l' Hu') as Hl'.
  destruct (userConnections r !! uid) as [l|] eqn:Hu.
  - rewrite set_at_alter_ne; [done|].
    intros ->. apply Hne. by eapply ok_separate.
  - unfold set_at. cbn [sets]. by rewrite lookup_app_l.
Qed.

Lemma connections_of_removeConnection (uid : string) (c : ConnRef) (r : EventRouter) :
  registry_ok r →
  connections_of uid (removeConnection uid c r) =
  filter (λ x, x ≠ c) (connections_of uid r).
Proof.
  intros Hok. rewrite removeConnection_eq by done.
  unfold connections_of, getConnections.
  destruct (userConnections r !! uid) as [l|] eqn:Hu; [|by rewrite Hu].
  case_bool_decide as Hempty; cbn [userConnections sets].
  - by rewrite lookup_delete_eq, Hempty.
  - rewrite Hu. rewrite set_at_alter_eq by (by eapply ok_allocated).
    rewrite <- set_at_eta. apply set_values_delete.
Qed.

Lemma getConnections_removeConnection_other (uid u : string) (c : ConnRef) (r : EventRouter) :
  u ≠ uid →
  getConnections u (removeConnection uid c r) = getConnections u r.
Proof.
  intros Hne. unfold removeConnection, getConnections.
  destruct (userConnections r !! uid); [|done].
  case_bool_decide; cbn; [|done]. by rewrite lookup_delete_ne.
Qed.

Lemma connections_of_removeConnection_other (uid u : string) (c : ConnRef) (r : EventRouter) :
  registry_ok r → u ≠ uid →
  connections_of u (removeConnection uid c r) = connections_of u r.
Proof.
  intros Hok Hne. unfold connections_of.
  rewrite getConnections_removeConnection_other by done.
  unfold getConnections. destruct (userConnections r !! u) as [l'|] eqn:Hu'; [|done].
  f_equal. rewrite removeConnection_eq by done.
  destruct (userConnections r !! uid) as [l|] eqn:Hu; [|done].
  assert (l ≠ l') as Hll.
  { intros ->. apply Hne. by eapply ok_separate. }
  case_bool_decide.
  - rewrite set_at_alter_ne by done. done.
  - rewrite set_at_alter_ne by done. done.
Qed.

(** ** The shape is kept *)

Lemma new_EventRouter_ok : registry_ok new_EventRouter.
Proof.
  split; cbn.
  - intros u l Hu. by rewrite lookup_empty in Hu.
  - intros u1 u2 l Hu. by rewrite lookup_empty in Hu.
  - intros u l Hu. by rewrite lookup_empty in Hu.
  - intros l d Hl. by rewrite lookup_nil in Hl.
Qed.

Lemma connections_of_inhabited (r : EventRouter) (u : string) :
  registry_ok r → is_Some (getConnections u r) → connections_of u r ≠ [].
Proof.
  intros Hok [l Hl]. unfold connections_of. rewrite Hl.
  by eapply ok_inhabited.
Qed.

Lemma connections_of_NoDup (r : EventRouter) (u : string) :
  registry_ok r → NoDup (connections_of u r).
Proof.
  intros Hok. unfold connections_of, getConnections.
  destruct (userConnections r !! u) as [l|] eqn:Hu; [|apply NoDup_nil_2].
  unfold set_at. destruct (sets r !! l) as [d|] eqn:Hd; cbn.
  - by eapply ok_distinct.
  - apply NoDup_nil_2.
Qed.

Lemma addConnection_ok (uid : string) (c : ConnRef) (r : EventRouter) :
  registry_ok r → registry_ok (addConnection uid c r).
Proof.
  intros Hok.
  assert (∀ u l, getConnections u (addConnection uid c r) = Some l →
                 l < length (sets (addConnection uid c r))) as Halloc.
  { intros u l. rewrite addConnection_eq. unfold getConnections.
    destruct (userConnections r !! uid) as [l0|] eqn:Hu; cbn [userConnections sets].
    - rewrite length_alter. by eapply ok_allocated.
    - rewrite length_app. cbn. rewrite lookup_insert.
      case_decide; [intros [= <-]; lia|].
      intros Hl. pose proof (ok_allocated r Hok u l Hl). lia. }
  split.
  - exact Halloc.
  - intros u1 u2 l. rewrite addConnection_eq.
    destruct (userConnections r !! uid) as [l0|] eqn:Hu; cbn [userConnections].
    + by eapply ok_separate.
    + rewrite !lookup_insert.
      destruct (decide (uid = u1)) as [<-|H1], (decide (uid = u2)) as [<-|H2].
      * done.
      * intros [= <-] Hl. pose proof (ok_allocated r Hok u2 _ Hl). lia.
      * intros Hl [= <-]. pose proof (ok_allocated r Hok u1 _ Hl). lia.
      * by eapply ok_separate.
  - intros u l Hl.
    destruct (decide (u = uid)) as [->|Hne].
    + pose proof (connections_of_addConnection uid c r Hok) as Hc.
      unfold connections_of at 1 in Hc. unfold getConnections in Hc.
      rewrite Hl in Hc. rewrite Hc.
      case_bool_decide as Hin.
      * intros Hnil. rewrite Hnil in Hin. by apply not_elem_of_nil in Hin.
      * by destruct (connections_of uid r).
    + pose proof (connections_of_addConnection_other uid u c r Hok Hne) as Hc.
      unfold connections_of at 1 in Hc. unfold getConnections in Hc.
      rewrite Hl in Hc. rewrite Hc.
      apply connections_of_inhabited; [done|].
      rewrite <- (getConnections_addConnection_other uid u c r Hne). by eexists.
  - intros l d. rewrite addConnection_eq.
    destruct (userConnections r !! uid) as [l0|] eqn:Hu; cbn [sets].
    + rewrite list_lookup_alter. case_decide as Hl0.
      * subst l0. destruct (sets r !! l) as [d0|] eqn:Hd0; [|done].
        intros [= <-]. apply NoDup_set_add. by eapply ok_distinct.
      * by eapply ok_distinct.
    + intros [Hd|[_ Hd]]%lookup_app_Some.
      * by eapply ok_distinct.
      * destruct (l - length (sets r)) as [|k]; [|by destruct k].
        injection Hd as <-. apply NoDup_singleton.
Qed.

Lemma removeConnection_ok (uid : string) (c : ConnRef) (r : EventRouter) :
  registry_ok r → registry_ok (removeConnection uid c r).
Proof.
  intros Hok.
  assert (userConnections (removeConnection uid c r) ⊆ userConnections r) as Hsub.
  { rewrite removeConnection_eq by done.
    destruct (userConnections r !! uid); [|done].
    case_bool_decide; cbn [userConnections]; [apply delete_subseteq|done]. }
  assert (length (sets (removeConnection uid c r)) = length (sets r)) as Hlen.
  { rewrite removeConnection_eq by done.
    destruct (userConnections r !! uid); [|done].
    case_bool_decide; cbn [sets]; apply length_alter. }
  split.
  - intros u l Hl. rewrite Hlen. eapply ok_allocated; [done|].
    by eapply lookup_weaken.
  - intros u1 u2 l H1 H2.
    eapply (ok_separate r Hok); by eapply lookup_weaken.
  - intros u l Hl.
    destruct (decide (u = uid)) as [->|Hne].
    + pose proof (connections_of_removeConnection uid c r Hok) as Hc.
      unfold connections_of at 1 in Hc. unfold getConnections in Hc.
      rewrite Hl in Hc. rewrite Hc. clear Hc.
      rewrite removeConnection_eq in Hl by done.
      unfold connections_of, getConnections.
      destruct (userConnections r !! uid) as [l0|] eqn:Hu.
      * case_bool_decide as Hempty; cbn [userConnections] in Hl.
        -- by rewrite lookup_delete_eq in Hl.
        -- done.
      * by rewrite Hu in Hl.
    + pose proof (connections_of_removeConnection_other uid u c r Hok Hne) as Hc.
      unfold connections_of at 1 in Hc. unfold getConnections in Hc.
      rewrite Hl in Hc. rewrite Hc.
      apply connections_of_inhabited; [done|].
      rewrite <- (getConnections_removeConnection_other uid u c r Hne). by eexists.
  - intros l d. rewrite removeConnection_eq by done.
    destruct (userConnections r !! uid) as [l0|] eqn:Hu; [|by eapply ok_distinct].
    assert (alter (set_delete c) l0 (sets r) !! l = Some d → NoDup (set_values d)) as Hgoal.
    { rewrite list_lookup_alter. case_decide as Hl0.
      - subst l0. destruct (sets r !! l) as [d0|] eqn:Hd0; [|done].
        intros [= <-]. apply NoDup_set_delete. by eapply ok_distinct.
      - by eapply ok_distinct. }
    by case_bool_decide.
Qed.

Lemma run_calls_ok (cs : list RegistryCall) (r : EventRouter) :
  registry_ok r → registry_ok (run_calls cs r).
Proof.
  revert r. induction cs as [|[u c|u c] cs IH]; intros r Hok; [done| |].
  - apply IH. by apply addConnection_ok.
  - apply IH. by apply removeConnection_ok.
Qed.

Lemma run_calls_snoc (cs : list RegistryCall) (c : RegistryCall) (r : EventRouter) :
  run_calls (cs ++ [c]) r = run_call c (run_calls cs r).
Proof. unfold run_calls. by rewrite foldl_snoc. Qed.

(** ** Emission over sockets that only queue *)

Lemma deliveries_nil objects ev p f skip :
  deliveries objects ev p f skip [] = [].
Proof. done. Qed.

Lemma deliveries_cons objects ev p f skip (c : ConnRef) (cs : list ConnRef) :
  deliveries objects ev p f skip (c :: cs) =
  (if bool_decide (skip = Some c) then []
   else if negb (shouldSendToConnection (objects c) f) then []
   else [ {| via := c; channel := socket (objects c); eventName := ev; data := p |} ])
  ++ deliveries objects ev p f skip cs.
Proof.
  unfold deliveries. rewrite filter_cons.
  case_bool_decide as Hs.
  - rewrite decide_False; [done|]. intros [? _]. done.
  - destruct (shouldSendToConnection (objects c) f) eqn:Hf; cbn [negb].
    + by rewrite decide_True.
    + rewrite decide_False; [done|]. intros [_ ?]. done.
Qed.

Lemma emit_loop_fire_and_forget objects (fuel : nat) (l : SetRef) (index : nat)
    ev p f skip (w : World) :
  length (set_at (router w) l) - index < fuel →
  emit_loop objects fire_and_forget fuel l index ev p f skip w =
  Some {| router := router w;
          wire := wire w ++
            deliveries objects ev p f skip
              (set_values (drop index (set_at (router w) l)));
          diagnostics := diagnostics w |}.
Proof.
  revert index w. induction fuel as [|fuel IH]; intros index w Hfuel; [lia|].
  cbn [emit_loop].
  destruct (set_at (router w) l !! index) as [e|] eqn:He.
  - rewrite (drop_S _ _ _ He).
    pose proof (lookup_lt_Some _ _ _ He) as Hlt.
    destruct e as [c|].
    + change (set_values (Some c :: drop (S index) (set_at (router w) l)))
        with (c :: set_values (drop (S index) (set_at (router w) l))).
      rewrite deliveries_cons.
      case_bool_decide as Hs; [rewrite IH by lia; done|].
      destruct (shouldSendToConnection (objects c) f) eqn:Hf; cbn [negb].
      * unfold socket_emit, fire_and_forget.
        rewrite IH by (cbn [router]; lia). cbn [router wire diagnostics].
        by rewrite <- app_assoc.
      * rewrite IH by lia. done.
    + rewrite IH by lia. done.
  - apply lookup_ge_None_1 in He. rewrite drop_ge by done.
    rewrite deliveries_nil, app_nil_r. by destruct w.
Qed.

Lemma emit_fire_and_forget objects (fuel : nat) (uid : string) ev p f skip (w : World) :
  rounds uid (router w) ≤ fuel →
  emit objects fire_and_forget fuel uid ev p f skip w =
  Some (match getConnections uid (router w) with
        | Some _ =>
            {| router := router w;
               wire := wire w ++
                 deliveries objects ev p f skip (connections_of uid (router w));
               diagnostics := diagnostics w |}
        | None => log_warn ("No connections found for user " +:+ uid) w
        end).
Proof.
  unfold emit, rounds, connections_of, getConnections.
  destruct (userConnections (router w) !! uid) as [l|]; [|done].
  intros Hfuel. rewrite emit_loop_fire_and_forget by lia. by rewrite drop_0.
Qed.

Lemma emission_fire_and_forget objects (fuel : nat) (uid : string) (e : Emission)
    (f : option RecipientFilter) skip (w : World) :
  rounds uid (router w) ≤ fuel →
  emission objects fire_and_forget fuel uid e f skip w =
  Some (match getConnections uid (router w) with
        | Some _ =>
            {| router := router w;
               wire := wire w ++
                 deliveries objects (emission_event e) (emission_payload e)
                   (default all_user_authenticated_connections f) skip
                   (connections_of uid (router w));
               diagnostics := diagnostics w |}
        | None => log_warn ("No connections found for user " +:+ uid) w
        end).
Proof.
  intros Hfuel. destruct e; cbn [emission emission_event emission_payload];
    unfold emitUpdate, emitEphemeral; by apply emit_fire_and_forget.
Qed.

(** ** Counting writes *)

Lemma delivered_to_app (c : ConnRef) (ds1 ds2 : list Delivery) :
  delivered_to c (ds1 ++ ds2) = delivered_to c ds1 + delivered_to c ds2.
Proof. unfold delivered_to. by rewrite filter_app, length_app. Qed.

Lemma delivered_to_deliveries_absent objects ev p f skip (c : ConnRef) (cs : list ConnRef) :
  c ∉ cs → delivered_to c (deliveries objects ev p f skip cs) = 0.
Proof.
  induction cs as [|x cs IH]; intros Hc; [done|].
  apply not_elem_of_cons in Hc as [Hne Hc].
  rewrite deliveries_cons, delivered_to_app, IH by done.
  case_bool_decide; [done|].
  destruct (shouldSendToConnection (objects x) f); [|done].
  unfold delivered_to. cbn. by rewrite decide_False.
Qed.

Lemma delivered_to_deliveries objects ev p f skip (c : ConnRef) (cs : list ConnRef) :
  NoDup cs → c ∈ cs →
  delivered_to c (deliveries objects ev p f skip cs) =
  if bool_decide (skip = Some c) then 0
  else if shouldSendToConnection (objects c) f then 1 else 0.
Proof.
  induction cs as [|x cs IH]; intros Hnd Hc; [by apply not_elem_of_nil in Hc|].
  apply NoDup_cons in Hnd as [Hx Hnd].
  rewrite deliveries_cons, delivered_to_app.
  destruct (decide (c = x)) as [->|Hne].
  - rewrite delivered_to_deliveries_absent by done.
    case_bool_decide; [done|].
    destruct (shouldSendToConnection (objects x) f); [|done].
    unfold delivered_to. cbn. by rewrite decide_True.
  - apply elem_of_cons in Hc as [?|Hc]; [done|].
    rewrite IH by done.
    assert (delivered_to c
      (if bool_decide (skip = Some x) then []
       else if negb (shouldSendToConnection (objects x) f) then []
       else [ {| via := x; channel := socket (objects x);
                 eventName := ev; data := p |} ]) = 0) as ->; [|done].
    destruct (bool_decide (skip = Some x)); [done|].
    destruct (shouldSendToConnection (objects x) f); [|done].
    unfold delivered_to. cbn. by rewrite decide_False.
Qed.

Lemma elem_of_deliveries objects ev p f skip (d : Delivery) (cs : list ConnRef) :
  d ∈ deliveries objects ev p f skip cs ↔
  d = {| via := via d; channel := socket (objects (via d));
         eventName := ev; data := p |} ∧
  via d ∈ cs ∧ skip ≠ Some (via d) ∧
  shouldSendToConnection (objects (via d)) f = true.
Proof.
  unfold deliveries. rewrite list_elem_of_fmap. split.
  - intros (c & -> & Hc). apply list_elem_of_filter in Hc as [[Hs Hf] Hc]. done.
  - intros (Hd & Hc & Hs & Hf). exists (via d). split; [done|].
    apply list_elem_of_filter. done.
Qed.

Lemma written_on_deliveries objects ev p f skip (c : ConnRef) (cs : list ConnRef) :
  owns_socket objects cs c →
  written_on (socket (objects c)) (deliveries objects ev p f skip cs) =
  delivered_to c (deliveries objects ev p f skip cs).
Proof.
  induction cs as [|x cs IH]; intros Hown; [done|].
  assert (owns_socket objects cs c) as Hown'.
  { intros c' Hc'. apply Hown. by right. }
  rewrite deliveries_cons. unfold written_on, delivered_to in *.
  rewrite !filter_app, !length_app, IH by done. f_equal.
  destruct (bool_decide (skip = Some x)); [done|].
  destruct (shouldSendToConnection (objects x) f); [|done].
  cbn [negb]. rewrite !filter_cons, !filter_nil. cbn [channel via].
  destruct (decide (x = c)) as [->|Hne].
  - by rewrite decide_True.
  - rewrite decide_False; [done|]. intros Hs. apply Hne, Hown; [by left|done].
Qed.

(** ** The recipient filter *)

(** C1.  [shouldSendToConnection] follows the table of the recipient filter:
    under [all-interested-in-session] with session [sid] a session-scoped
    connection passes exactly when its [sessionId] is [sid], a user-scoped
    connection always passes and a machine-scoped connection never does;
    under [user-scoped-only] a connection passes exactly when it is
    user-scoped; under [all-user-authenticated-connections] every connection
    passes. *)
Theorem shouldSendToConnection_table :
  (∀ sid : string,
     (∀ s u csid,
        shouldSendToConnection (SessionScopedConnection s u csid)
          (all_interested_in_session sid) = true ↔ csid = sid) ∧
     (∀ s u,
        shouldSendToConnection (UserScopedConnection s u)
          (all_interested_in_session sid) = true) ∧
     (∀ s u m,
        shouldSendToConnection (MachineScopedConnection s u m)
          (all_interested_in_session sid) = false)) ∧
  (∀ c : ClientConnection,
     shouldSendToConnection c user_scoped_only = true ↔
     connectionType c = user_scoped) ∧
  (∀ c : ClientConnection,
     shouldSendToConnection c all_user_authenticated_connections = true).
Proof.
  split_and!; try done.
  - intros sid. split_and!; try done.
    intros s u csid. cbn. case_bool_decide as Hne.
    + split; [done|]. intros ->. done.
    + split; [|done]. intros _.
      destruct (decide (csid = sid)); [done|contradiction].
  - intros c. cbn. apply bool_decide_eq_true.
Qed.

(** ** After a removal *)

Lemma removed_stays_out (U : string) (C : ConnRef) (later : list RegistryCall)
    (r : EventRouter) :
  registry_ok r → C ∉ connections_of U r →
  forallb (λ call, negb (registers U C call)) later = true →
  C ∉ connections_of U (run_calls later r).
Proof.
  revert r. induction later as [|call later IH]; intros r Hok Hout Hlater; [done|].
  cbn [forallb] in Hlater. apply andb_prop in Hlater as [Hcall Hlater].
  change (run_calls (call :: later) r) with (run_calls later (run_call call r)).
  destruct call as [u k|u k]; cbn [run_call].
  - apply IH; [by apply addConnection_ok| |done].
    destruct (decide (u = U)) as [->|Hne].
    + rewrite connections_of_addConnection by done.
      case_bool_decide; [done|].
      rewrite elem_of_app, list_elem_of_singleton. intros [?| ->]; [done|].
      cbn in Hcall. by rewrite bool_decide_eq_true_2 in Hcall.
    + by rewrite connections_of_addConnection_other.
  - apply IH; [by apply removeConnection_ok| |done].
    destruct (decide (u = U)) as [->|Hne].
    + rewrite connections_of_removeConnection by done.
      rewrite list_elem_of_filter. by intros [_ ?].
    + by rewrite connections_of_removeConnection_other.
Qed.

Lemma absent_stays_absent (U : string) (later : list RegistryCall) (r : EventRouter) :
  getConnections U r = None →
  forallb (λ call, negb (registers_under U call)) later = true →
  getConnections U (run_calls later r) = None.
Proof.
  revert r. induction later as [|call later IH]; intros r Hnone Hlater; [done|].
  cbn [forallb] in Hlater. apply andb_prop in Hlater as [Hcall Hlater].
  change (run_calls (call :: later) r) with (run_calls later (run_call call r)).
  apply IH; [|done].
  destruct call as [u k|u k]; cbn [run_call].
  - rewrite getConnections_addConnection_other; [done|].
    intros <-. cbn in Hcall. by rewrite bool_decide_eq_true_2 in Hcall.
  - destruct (decide (u = U)) as [->|Hne].
    + unfold removeConnection. unfold getConnections in Hnone. by rewrite Hnone.
    + by rewrite getConnections_removeConnection_other.
Qed.

Lemma removeConnection_last (U : string) (C : ConnRef) (r : EventRouter) :
  registry_ok r → connections_of U r = [C] →
  getConnections U (removeConnection U C r) = None.
Proof.
  intros Hok Honly. rewrite removeConnection_eq by done.
  unfold connections_of, getConnections in *.
  destruct (userConnections r !! U) as [l|] eqn:Hu; [|done].
  rewrite Honly. rewrite filter_cons_False by (by intros []).
  rewrite bool_decide_eq_true_2 by done. cbn. apply lookup_delete_eq.
Qed.

(** ** No key without a connection *)

(** C5.  After any sequence of [addConnection] and [removeConnection] calls on
    a new router, every user id that is a key of the registry refers to a
    set with at least one member; and [removeConnection] of the only
    member of a user's set deletes the user's key. *)
Theorem registry_keys_have_connections (calls : list RegistryCall) :
  (∀ (u : string) (l : SetRef),
     getConnections u (run_calls calls new_EventRouter) = Some l →
     0 < set_size (set_at (run_calls calls new_EventRouter) l)) ∧
  (∀ (u : string) (c : ConnRef),
     connections_of u (run_calls calls new_EventRouter) = [c] →
     getConnections u (removeConnection u c (run_calls calls new_EventRouter)) = None).
Proof.
  assert (registry_ok (run_calls calls new_EventRouter)) as Hok
    by apply run_calls_ok, new_EventRouter_ok.
  split.
  - intros u l Hl. unfold set_size.
    pose proof (ok_inhabited _ Hok u l Hl) as Hne.
    destruct (set_values (set_at (run_calls calls new_EventRouter) l));
      [done|cbn; lia].
  - intros u c Honly. by apply removeConnection_last.
Qed.

(** The same at work: the set of [u1] after one of its three connections is
    removed; the key of [u9] after its only connection is removed. *)
Lemma registry_keys_have_connections_example :
  0 < set_size (set_at (run_calls (example_calls ++ [call_removeConnection "u1" 1])
                          new_EventRouter) 0) ∧
  getConnections "u9"
    (removeConnection "u9" 6
       (run_calls [call_addConnection "u9" 6; call_addConnection "u8" 6]
          new_EventRouter)) = None.
Proof.
  split.
  - apply (proj1 (registry_keys_have_connections
                    (example_calls ++ [call_removeConnection "u1" 1])) "u1" 0).
    reflexivity.
  - apply (proj2 (registry_keys_have_connections
                    [call_addConnection "u9" 6; call_addConnection "u8" 6]) "u9" 6).
    reflexivity.
Defined.

(** ** Registering twice *)




(** ** Emission to a user without connections *)

(** C7.  In a registry built by [addConnection] and [removeConnection], an
    emission to a user with no registered connection, with any payload,
    filter, sender to skip and behaviour of the sockets, returns whatever
    the bound on the rounds, writes to no socket, leaves the registry as it
    was and records one warning. *)
Theorem emission_without_connections
    (objects : ConnRef → ClientConnection) (react : Reaction)
    (calls : list RegistryCall) (U : string) (e : Emission)
    (f : option RecipientFilter) (skip : option ConnRef) (fuel : nat)
    (wire0 : list Delivery) (log0 : list LogEntry) :
  connections_of U (run_calls calls new_EventRouter) = [] →
  emission objects react fuel U e f skip
    {| router := run_calls calls new_EventRouter;
       wire := wire0; diagnostics := log0 |} =
  Some {| router := run_calls calls new_EventRouter;
          wire := wire0;
          diagnostics := log0 ++
            [ {| log_module := "websocket"; log_level := "warn";
                 log_message := "No connections found for user " +:+ U |} ] |}.
Proof.
  set (r := run_calls calls new_EventRouter). intros Hnone.
  assert (registry_ok r) as Hok by apply run_calls_ok, new_EventRouter_ok.
  assert (userConnections r !! U = None) as Hu.
  { destruct (userConnections r !! U) as [l|] eqn:Hl; [|done].
    exfalso. by apply (connections_of_inhabited r U Hok); [exists l|]. }
  destruct e; cbn [emission]; unfold emitUpdate, emitEphemeral, emit;
    cbn [router]; by rewrite Hu.
Qed.

(** The same at work: the usage payload of the specification's scenario,
    emitted to a user nobody registered a connection for. *)
Lemma emission_without_connections_example :
  emission example_objects fire_and_forget 0 "u2"
    (call_emitEphemeral example_usage) None None
    {| router := run_calls example_calls new_EventRouter;
       wire := []; diagnostics := [] |} =
  Some {| router := run_calls example_calls new_EventRouter;
          wire := [];
          diagnostics := [] ++
            [ {| log_module := "websocket"; log_level := "warn";
                 log_message := "No connections found for user " +:+ "u2" |} ] |}.
Proof.
  apply (emission_without_connections example_objects fire_and_forget
           example_calls "u2" (call_emitEphemeral example_usage) None None 0 [] []).
  reflexivity.
Defined.

(** ** Emission leaves the registry alone *)

Lemma emit_loop_frame objects (react : Reaction) (l : SetRef) ev p f skip
    (fuel index : nat) (w w' : World) :
  emit_loop objects react fuel l index ev p f skip w = Some w' →
  ∃ written : list Delivery,
    wire w' = wire w ++ written ∧
    router w' = reactions react written (router w) ∧
    diagnostics w' = diagnostics w.
Proof.
  revert index w. induction fuel as [|fuel IH]; intros index w Hrun; [done|].
  cbn [emit_loop] in Hrun.
  destruct (set_at (router w) l !! index) as [[c|]|].
  - destruct (bool_decide (skip = Some c)); [by eapply IH|].
    destruct (shouldSendToConnection (objects c) f); cbn [negb] in Hrun;
      [|by eapply IH].
    destruct (IH _ _ Hrun) as (written & Hwire & Hrouter & Hlog).
    exists ({| via := c; channel := socket (objects c);
               eventName := ev; data := p |} :: written).
    cbn [socket_emit wire router diagnostics] in *.
    split_and!; [|done|done]. rewrite Hwire. by rewrite <- app_assoc.
  - by eapply IH.
  - injection Hrun as <-. exists []. by rewrite app_nil_r.
Qed.

(** C10.  For every registry, user, payload, filter and sender to skip:
    whatever the sockets do, the router after an emission that has written
    to some sockets is the router before it with the reactions of those
    sockets applied, the emission itself changing nothing; and over sockets
    that only queue the emission returns and leaves the router as it was, so
    that [getConnections] answers the same set object for every user, with
    the same members. *)
Theorem emission_preserves_registry
    (objects : ConnRef → ClientConnection) (U : string) (e : Emission)
    (f : option RecipientFilter) (skip : option ConnRef) (fuel : nat) (w : World) :
  (∀ (react : Reaction) (w' : World),
     emission objects react fuel U e f skip w = Some w' →
     ∃ written : list Delivery,
       wire w' = wire w ++ written ∧
       router w' = reactions react written (router w)) ∧
  (rounds U (router w) ≤ fuel →
   ∃ w' : World,
     emission objects fire_and_forget fuel U e f skip w = Some w' ∧
     router w' = router w ∧
     ∀ u : string,
       getConnections u (router w') = getConnections u (router w) ∧
       connections_of u (router w') = connections_of u (router w)).
Proof.
  split.
  - intros react w' Hrun.
    assert (emit objects react fuel U (emission_event e) (emission_payload e)
              (default all_user_authenticated_connections f) skip w = Some w')
      as Hemit by by destruct e.
    unfold emit in Hemit.
    destruct (userConnections (router w) !! U) as [l|].
    + destruct (emit_loop_frame _ _ _ _ _ _ _ _ _ _ _ Hemit)
        as (written & Hwire & Hrouter & _).
      by exists written.
    + injection Hemit as <-. exists []. cbn. by rewrite app_nil_r.
  - intros Hfuel. rewrite emission_fire_and_forget by done.
    eexists. split; [done|].
    assert (router
      match getConnections U (router w) with
      | Some _ =>
          {| router := router w;
             wire := wire w ++
               deliveries objects (emission_event e) (emission_payload e)
                 (default all_user_authenticated_connections f) skip
                 (connections_of U (router w));
             diagnostics := diagnostics w |}
      | None => log_warn ("No connections found for user " +:+ U) w
      end = router w) as Hsame by by destruct (getConnections U (router w)).
    rewrite Hsame. done.
Qed.

(** The same at work, for an update filtered for session [s1]. *)
Lemma emission_preserves_registry_example :
  ∃ w' : World,
    emission example_objects fire_and_forget 4 "u1"
      (call_emitUpdate example_update) (Some (all_interested_in_session "s1")) (Some 4)
      example_world = Some w' ∧
    router w' = router example_world ∧
    ∀ u : string,
      getConnections u (router w') = getConnections u (router example_world) ∧
      connections_of u (router w') = connections_of u (router example_world).
Proof.
  apply (proj2 (emission_preserves_registry example_objects "u1"
                  (call_emitUpdate example_update)
                  (Some (all_interested_in_session "s1")) (Some 4) 4
                  example_world)).
  vm_compute. lia.
Defined.

(** ** The emission loop reads the set as it is *)


(** ** Payload builders *)

(** C8, as the code has it.  [buildNewMessageUpdate] returns an envelope
    whose [id] and [seq] are the given [updateId] and [updateSeq], whose
    [createdAt] is the clock reading, and whose body is the tag
    [t = new-message], the given session id under the key [sid], and under
    [message] the fields of the message record, [createdAt] and [updatedAt]
    being the time values of the two dates.  That is the body made of the
    properties of the [new-message] variant of [UpdateEvent], except that the
    session id is keyed [sid] where the variant declares [sessionId]. *)
Theorem buildNewMessageUpdate_payload
    (message : MessageRecord) (sessionId : string)
    (updateSeq : float) (updateId : string) (now : float) :
  let p := buildNewMessageUpdate message sessionId updateSeq updateId now in
  payload_id p = updateId ∧
  payload_seq p = updateSeq ∧
  payload_createdAt p = now ∧
  fst <$> payload_body p = ["t"; "sid"; "message"] ∧
  property "t" (payload_body p) = Some (js_string "new-message") ∧
  property "sid" (payload_body p) = Some (js_string sessionId) ∧
  property "message" (payload_body p) =
    Some (js_object
            [ ("id", js_string (message_id message));
              ("seq", js_number (message_seq message));
              ("content", message_content message);
              ("localId", js_string_or_null (message_localId message));
              ("createdAt", js_number (getTime (message_createdAt message)));
              ("updatedAt", js_number (getTime (message_updatedAt message))) ]) ∧
  payload_body p =
    prod_map (λ k, if bool_decide (k = "sessionId") then "sid" else k) (λ v, v)
      <$> spec_new_message_body message sessionId.
Proof. cbv zeta. split_and!; reflexivity. Qed.

(** C8, as the specification has it, fails: the body has no property
    [sessionId], which the [new-message] variant of [UpdateEvent] declares;
    the session id is under [sid]. *)
Lemma buildNewMessageUpdate_has_no_sessionId :
  property "sessionId"
    (payload_body (buildNewMessageUpdate example_message "s1" 8%float "upd-2" 1700000001000%float))
    = None ∧
  property "sessionId" (spec_new_message_body example_message "s1")
    = Some (js_string "s1") ∧
  fst <$> payload_body
            (buildNewMessageUpdate example_message "s1" 8%float "upd-2" 1700000001000%float)
    = ["t"; "sid"; "message"] ∧
  "t" :: UpdateEvent_properties new_message = ["t"; "sessionId"; "message"].
Proof. vm_compute. done. Qed.

(** C9.  Two calls of [buildNewSessionUpdate] with the same session record,
    [updateSeq] and [updateId] return envelopes with the same [id], the same
    [seq] and the same body; the [createdAt] of each is the clock reading
    of its call, which is all that can differ. *)
Theorem buildNewSessionUpdate_deterministic
    (session : SessionRecord) (updateSeq : float) (updateId : string)
    (now1 now2 : float) :
  let p1 := buildNewSessionUpdate session updateSeq updateId now1 in
  let p2 := buildNewSessionUpdate session updateSeq updateId now2 in
  payload_id p1 = payload_id p2 ∧
  payload_seq p1 = payload_seq p2 ∧
  payload_body p1 = payload_body p2 ∧
  payload_createdAt p1 = now1 ∧
  payload_createdAt p2 = now2 ∧
  p2 = {| payload_id := payload_id p1; payload_seq := payload_seq p1;
          payload_body := payload_body p1; payload_createdAt := now2 |}.
Proof. cbv zeta. split_and!; reflexivity. Qed.

(** ** The scenarios of the specification, run *)

(** Connections 1 (session [s1]), 2 (session [s2]) and 4 (user-scoped):
    an update filtered for session [s1] goes through 1 and 4, not 2. *)
Example scenario_session_filter :
  (λ w, via <$> wire w) <$>
    emitUpdate example_objects fire_and_forget 4 "u1" example_update
      (Some (all_interested_in_session "s1")) None example_world
  = Some [1; 4].
Proof. reflexivity. Qed.

(** With the machine-scoped connection 3 registered as well, a
    [user-scoped-only] emission goes through 4 alone. *)
Example scenario_user_scoped_only :
  (λ w, via <$> wire w) <$>
    emitEphemeral example_objects fire_and_forget 5 "u1" example_usage
      (Some user_scoped_only) None
      {| router := addConnection "u1" 3 (router example_world);
         wire := []; diagnostics := [] |}
  = Some [4].
Proof. reflexivity. Qed.

(** Too few rounds: the bound is reported, not a result. *)
Example scenario_out_of_rounds :
  emitUpdate example_objects fire_and_forget 3 "u1" example_update None None
    example_world = None.
Proof. reflexivity. Qed.

(** A connection registered while the loop runs is appended to the set the
    loop is visiting, and is reached. *)
Example scenario_registered_during_loop :
  (λ w, (via <$> wire w, connections_of "u1" (router w))) <$>
    emitUpdate example_objects example_connecting 5 "u1" example_update None None
      example_world
  = Some ([1; 2; 4; 7], [1; 2; 4; 7]).
Proof. reflexivity. Qed.

(** A connection removed while the loop runs, before its turn, is not
    reached; its slot stays behind, emptied. *)
Example scenario_removed_during_loop :
  (λ w, (via <$> wire w, set_at (router w) 0)) <$>
    emitUpdate example_objects example_disconnecting 4 "u1" example_update None None
      example_world
  = Some ([1; 4], [Some 1; None; Some 4]).
Proof. reflexivity. Qed.

(** * Further properties of the registry *)

Lemma filter_keeps_all {A} (P : A → Prop) `{∀ x, Decision (P x)} (l : list A) :
  (∀ x, x ∈ l → P x) → filter P l = l.
Proof.
  induction l as [|x l IH]; intros Hall; [done|].
  rewrite filter_cons_True by (apply Hall; by left).
  f_equal. apply IH. intros y Hy. apply Hall. by right.
Qed.

Lemma set_delete_absent (c : ConnRef) (d : SetData) :
  c ∉ set_values d → set_delete c d = d.
Proof.
  intros Hc. unfold set_delete.
  induction d as [|e d IH]; [done|].
  rewrite fmap_cons. f_equal.
  - case_bool_decide as He; [|done]. subst e.
    exfalso. apply Hc. apply elem_of_set_values. by left.
  - apply IH. intros Hin. apply Hc.
    apply elem_of_set_values. right. by apply elem_of_set_values.
Qed.

Lemma removeConnection_absent (U : string) (C : ConnRef) (r : EventRouter) :
  registry_ok r → C ∉ connections_of U r → removeConnection U C r = r.
Proof.
  intros Hok Hout. rewrite removeConnection_eq by done.
  unfold connections_of, getConnections in Hout.
  destruct (userConnections r !! U) as [l|] eqn:Hu; [|done].
  rewrite filter_keeps_all
    by (intros x Hx ->; by apply Hout).
  rewrite bool_decide_eq_false_2 by (by eapply ok_inhabited).
  destruct r as [m s]. cbn [userConnections sets] in *. f_equal.
  apply list_eq. intros i. rewrite list_lookup_alter.
  case_decide as Hi; [|done]. subst i.
  unfold set_at in Hout. cbn [sets] in Hout.
  destruct (s !! l) as [d|]; [|done]. cbn in *.
  by rewrite set_delete_absent.
Qed.

Lemma removeConnection_removes (U : string) (C : ConnRef) (r : EventRouter) :
  registry_ok r → C ∉ connections_of U (removeConnection U C r).
Proof.
  intros Hok. rewrite connections_of_removeConnection by done.
  rewrite list_elem_of_filter. by intros [? _].
Qed.

(** X1.  In a registry built by [addConnection] and [removeConnection], the
    connections registered under a user are exactly those whose last call
    under that user was an [addConnection]. *)
Theorem registered_iff_last_call_adds (calls : list RegistryCall)
    (u : string) (c : ConnRef) :
  c ∈ connections_of u (run_calls calls new_EventRouter) ↔
  registered_after u c calls = true.
Proof.
  induction calls as [|call calls IH] using rev_ind.
  - cbn. split; [by intros ?%elem_of_nil|done].
  - rewrite run_calls_snoc. unfold registered_after. rewrite foldl_snoc.
    fold (registered_after u c calls).
    set (r := run_calls calls new_EventRouter) in *.
    assert (registry_ok r) as Hok by apply run_calls_ok, new_EventRouter_ok.
    destruct call as [u' k|u' k]; cbn [run_call].
    + destruct (decide (u' = u)) as [->|Hne].
      * rewrite connections_of_addConnection by done.
        destruct (decide (k = c)) as [->|Hk].
        -- rewrite (bool_decide_eq_true_2 (u = u ∧ c = c)) by done.
           split; [done|]. intros _.
           case_bool_decide; [done|].
           rewrite elem_of_app, list_elem_of_singleton. by right.
        -- rewrite (bool_decide_eq_false_2 (u = u ∧ k = c)) by (by intros [_ ?]).
           rewrite <- IH. case_bool_decide as Hin; [done|].
           rewrite elem_of_app, list_elem_of_singleton.
           split; [|by left]. by intros [?| ->].
      * rewrite connections_of_addConnection_other by done.
        rewrite bool_decide_eq_false_2 by (by intros [? _]). exact IH.
    + destruct (decide (u' = u)) as [->|Hne].
      * rewrite connections_of_removeConnection by done.
        rewrite list_elem_of_filter.
        destruct (decide (k = c)) as [->|Hk].
        -- rewrite (bool_decide_eq_true_2 (u = u ∧ c = c)) by done.
           split; [by intros [? _]|done].
        -- rewrite (bool_decide_eq_false_2 (u = u ∧ k = c)) by (by intros [_ ?]).
           rewrite <- IH. split; [by intros [_ ?]|]. intros Hin.
           split; [|done]. by intros ->.
      * rewrite connections_of_removeConnection_other by done.
        rewrite bool_decide_eq_false_2 by (by intros [? _]). exact IH.
Qed.

(** X2.  In a registry built by [addConnection] and [removeConnection],
    [addConnection(U, C)] leaves the connections of every other user, and the
    set object [getConnections] answers for them, as they were; under [U] it
    changes nothing when [C] is registered already and otherwise puts [C]
    after the connections registered before. *)
Theorem addConnection_effect (calls : list RegistryCall)
    (U u : string) (C : ConnRef) :
  connections_of u (addConnection U C (run_calls calls new_EventRouter)) =
    (if bool_decide (u = U) then
       if bool_decide (C ∈ connections_of U (run_calls calls new_EventRouter))
       then connections_of U (run_calls calls new_EventRouter)
       else connections_of U (run_calls calls new_EventRouter) ++ [C]
     else connections_of u (run_calls calls new_EventRouter)) ∧
  (u ≠ U ∨ is_Some (getConnections U (run_calls calls new_EventRouter)) →
   getConnections u (addConnection U C (run_calls calls new_EventRouter)) =
   getConnections u (run_calls calls new_EventRouter)).
Proof.
  set (r := run_calls calls new_EventRouter).
  assert (registry_ok r) as Hok by apply run_calls_ok, new_EventRouter_ok.
  split.
  - case_bool_decide as Hu.
    + subst u. by apply connections_of_addConnection.
    + by apply connections_of_addConnection_other.
  - intros [Hne|[l Hl]].
    + by apply getConnections_addConnection_other.
    + destruct (decide (u = U)) as [->|Hne];
        [|by apply getConnections_addConnection_other].
      rewrite addConnection_eq. unfold getConnections in *. by rewrite Hl.
Qed.

(** X3.  In a registry built by [addConnection] and [removeConnection],
    [removeConnection(U, C)] leaves the connections of every other user, and
    the set object [getConnections] answers for them, as they were, and under
    [U] takes [C] out and keeps the others in their order. *)
Theorem removeConnection_effect (calls : list RegistryCall)
    (U u : string) (C : ConnRef) :
  connections_of u (removeConnection U C (run_calls calls new_EventRouter)) =
    (if bool_decide (u = U)
     then filter (λ x, x ≠ C) (connections_of U (run_calls calls new_EventRouter))
     else connections_of u (run_calls calls new_EventRouter)) ∧
  (u ≠ U →
   getConnections u (removeConnection U C (run_calls calls new_EventRouter)) =
   getConnections u (run_calls calls new_EventRouter)).
Proof.
  set (r := run_calls calls new_EventRouter).
  assert (registry_ok r) as Hok by apply run_calls_ok, new_EventRouter_ok.
  split.
  - case_bool_decide as Hu.
    + subst u. by apply connections_of_removeConnection.
    + by apply connections_of_removeConnection_other.
  - intros Hne. by apply getConnections_removeConnection_other.
Qed.

(** X4.  In a registry built by [addConnection] and [removeConnection],
    removing a connection that is not registered under the user (the user
    unknown, or the connection not among the user's) changes nothing at all,
    and removing a connection twice is removing it once. *)
Theorem removeConnection_redundant (calls : list RegistryCall)
    (U : string) (C : ConnRef) :
  (C ∉ connections_of U (run_calls calls new_EventRouter) →
   removeConnection U C (run_calls calls new_EventRouter) =
   run_calls calls new_EventRouter) ∧
  removeConnection U C (removeConnection U C (run_calls calls new_EventRouter)) =
  removeConnection U C (run_calls calls new_EventRouter).
Proof.
  set (r := run_calls calls new_EventRouter).
  assert (registry_ok r) as Hok by apply run_calls_ok, new_EventRouter_ok.
  split.
  - intros Hout. by apply removeConnection_absent.
  - apply removeConnection_absent; [by apply removeConnection_ok|].
    by apply removeConnection_removes.
Qed.

(** The same at work: connection 9 was never registered under [u1]. *)
Lemma removeConnection_redundant_example :
  removeConnection "u1" 9 (run_calls example_calls new_EventRouter) =
  run_calls example_calls new_EventRouter.
Proof.
  apply (proj1 (removeConnection_redundant example_calls "u1" 9)).
  vm_compute. intros H. by repeat (apply elem_of_cons in H as [H|H]; [discriminate|]);
    apply elem_of_nil in H.
Defined.

Lemma set_at_app_l (m m' : gmap string SetRef) (s extra : list SetData) (l : SetRef) :
  l < length s →
  set_at {| userConnections := m; sets := s ++ extra |} l =
  set_at {| userConnections := m'; sets := s |} l.
Proof. intros Hl. unfold set_at. cbn [sets]. by rewrite lookup_app_l. Qed.

(** X5.  In a registry built by [addConnection] and [removeConnection],
    registering a connection that was not registered under the user and
    removing it again leaves every user with the connections they had, in
    the same order. *)
Theorem addConnection_removeConnection_round_trip (calls : list RegistryCall)
    (U : string) (C : ConnRef) (u : string) :
  C ∉ connections_of U (run_calls calls new_EventRouter) →
  connections_of u
    (removeConnection U C (addConnection U C (run_calls calls new_EventRouter))) =
  connections_of u (run_calls calls new_EventRouter).
Proof.
  set (r := run_calls calls new_EventRouter). intros Hout.
  assert (registry_ok r) as Hok by apply run_calls_ok, new_EventRouter_ok.
  assert (registry_ok (addConnection U C r)) as Hok1 by by apply addConnection_ok.
  destruct (decide (u = U)) as [->|Hne].
  - rewrite connections_of_removeConnection, connections_of_addConnection by done.
    rewrite bool_decide_eq_false_2 by done.
    rewrite filter_app, filter_cons_False, filter_nil, app_nil_r by (by intros []).
    apply filter_keeps_all. by intros x Hx ->.
  - rewrite connections_of_removeConnection_other,
      connections_of_addConnection_other by done. done.
Qed.

(** The same at work: connection 8 registered under a new user [u2], then
    removed; seen from [u1] and from [u2]. *)
Lemma addConnection_removeConnection_round_trip_example :
  connections_of "u2"
    (removeConnection "u2" 8
       (addConnection "u2" 8 (run_calls example_calls new_EventRouter))) =
  connections_of "u2" (run_calls example_calls new_EventRouter).
Proof.
  apply (addConnection_removeConnection_round_trip example_calls "u2" 8 "u2").
  vm_compute. by intros ?%elem_of_nil.
Defined.

(** X6.  In a registry built by [addConnection] and [removeConnection], no
    user has a connection registered twice, and two users never share a set
    object, even when the same connection is registered under both. *)
Theorem registry_sets_are_sets (calls : list RegistryCall) :
  (∀ u : string, NoDup (connections_of u (run_calls calls new_EventRouter))) ∧
  (∀ (u1 u2 : string) (l : SetRef),
     getConnections u1 (run_calls calls new_EventRouter) = Some l →
     getConnections u2 (run_calls calls new_EventRouter) = Some l →
     u1 = u2).
Proof.
  assert (registry_ok (run_calls calls new_EventRouter)) as Hok
    by apply run_calls_ok, new_EventRouter_ok.
  split.
  - intros u. by apply connections_of_NoDup.
  - intros u1 u2 l. by apply ok_separate.
Qed.

(** X7.  In a registry built by [addConnection] and [removeConnection], once
    the only connection of a user is removed, the set object [getConnections]
    used to answer for that user is left empty and is no longer the user's:
    a connection registered afterwards goes into a new set object. *)
Theorem set_object_goes_stale (calls : list RegistryCall)
    (U : string) (C D : ConnRef) (l : SetRef) :
  getConnections U (run_calls calls new_EventRouter) = Some l →
  connections_of U (run_calls calls new_EventRouter) = [C] →
  ∃ l' : SetRef,
    getConnections U
      (addConnection U D
         (removeConnection U C (run_calls calls new_EventRouter))) = Some l' ∧
    l' ≠ l ∧
    set_values
      (set_at (addConnection U D
                 (removeConnection U C (run_calls calls new_EventRouter))) l) = [] ∧
    connections_of U
      (addConnection U D
         (removeConnection U C (run_calls calls new_EventRouter))) = [D].
Proof.
  set (r := run_calls calls new_EventRouter). intros Hl Honly.
  assert (registry_ok r) as Hok by apply run_calls_ok, new_EventRouter_ok.
  pose proof (ok_allocated r Hok U l Hl) as Hlt.
  assert (set_values (set_at r l) = [C]) as Hvals.
  { unfold connections_of in Honly. by rewrite Hl in Honly. }
  assert (removeConnection U C r =
          {| userConnections := delete U (userConnections r);
             sets := alter (set_delete C) l (sets r) |}) as Hrem.
  { rewrite removeConnection_eq by done. unfold getConnections in Hl. rewrite Hl.
    rewrite Hvals, filter_cons_False, filter_nil by (by intros []).
    by rewrite bool_decide_eq_true_2. }
  assert (addConnection U D (removeConnection U C r) =
          {| userConnections := <[U := length (sets r)]> (delete U (userConnections r));
             sets := alter (set_delete C) l (sets r) ++ [ [Some D] ] |}) as Hadd.
  { rewrite addConnection_eq, Hrem. cbn [userConnections sets].
    by rewrite lookup_delete_eq, length_alter. }
  exists (length (sets r)). rewrite Hadd. split_and!.
  - unfold getConnections. cbn [userConnections]. apply lookup_insert_eq.
  - lia.
  - rewrite (set_at_app_l _ (userConnections r)) by (by rewrite length_alter).
    rewrite set_at_alter_eq by done. rewrite <- set_at_eta.
    rewrite set_values_delete, Hvals.
    by rewrite filter_cons_False, filter_nil by (by intros []).
  - unfold connections_of, getConnections, set_at. cbn [userConnections sets].
    rewrite lookup_insert_eq.
    rewrite lookup_app_r by (by rewrite length_alter).
    by rewrite length_alter, Nat.sub_diag.
Qed.

(** The same at work: user [u9] with connection 6 alone, then connection 7. *)
Lemma set_object_goes_stale_example :
  ∃ l' : SetRef,
    getConnections "u9"
      (addConnection "u9" 7
         (removeConnection "u9" 6
            (run_calls (example_calls ++ [call_addConnection "u9" 6])
               new_EventRouter))) = Some l' ∧
    l' ≠ 1 ∧
    set_values
      (set_at (addConnection "u9" 7
                 (removeConnection "u9" 6
                    (run_calls (example_calls ++ [call_addConnection "u9" 6])
                       new_EventRouter))) 1) = [] ∧
    connections_of "u9"
      (addConnection "u9" 7
         (removeConnection "u9" 6
            (run_calls (example_calls ++ [call_addConnection "u9" 6])
               new_EventRouter))) = [7].
Proof.
  apply (set_object_goes_stale (example_calls ++ [call_addConnection "u9" 6])
           "u9" 6 7 1).
  - reflexivity.
  - reflexivity.
Defined.

(** * Further properties of the emission *)

Lemma via_deliveries_sublist objects ev p f skip (cs : list ConnRef) :
  via <$> deliveries objects ev p f skip cs `sublist_of` cs.
Proof.
  induction cs as [|x cs IH]; [constructor|].
  rewrite deliveries_cons.
  destruct (bool_decide (skip = Some x)); [by constructor|].
  destruct (shouldSendToConnection (objects x) f); cbn [negb];
    by constructor.
Qed.

Lemma deliveries_skip objects ev p f (c : ConnRef) (cs : list ConnRef) :
  deliveries objects ev p f (Some c) cs =
  filter (λ d, via d ≠ c) (deliveries objects ev p f None cs).
Proof.
  induction cs as [|x cs IH]; [done|].
  rewrite !deliveries_cons, filter_app, IH. f_equal.
  rewrite (bool_decide_eq_false_2 (None = Some x)) by done.
  destruct (shouldSendToConnection (objects x) f); cbn [negb].
  - rewrite filter_cons, filter_nil. cbn [via].
    case_bool_decide as Hx.
    + injection Hx as ->. by rewrite decide_False by (by intros []).
    + rewrite decide_True; [done|]. by intros ->.
  - by destruct (bool_decide (Some c = Some x)).
Qed.

(** X8.  In a registry built by [addConnection] and [removeConnection], for a
    user with registered connections and over sockets that only queue, either
    entry point with any filter and any sender to skip returns, leaves the
    registry and the log as they were, and writes its own tag and payload
    exactly once through each registered connection that passes the filter
    and is not the sender to skip, and through no other connection. *)
Theorem emission_delivers_by_filter
    (objects : ConnRef → ClientConnection) (calls : list RegistryCall)
    (U : string) (e : Emission) (f : option RecipientFilter)
    (skip : option ConnRef) (fuel : nat)
    (wire0 : list Delivery) (log0 : list LogEntry) :
  connections_of U (run_calls calls new_EventRouter) ≠ [] →
  rounds U (run_calls calls new_EventRouter) ≤ fuel →
  ∃ written : list Delivery,
    emission objects fire_and_forget fuel U e f skip
      {| router := run_calls calls new_EventRouter;
         wire := wire0; diagnostics := log0 |} =
    Some {| router := run_calls calls new_EventRouter;
            wire := wire0 ++ written; diagnostics := log0 |} ∧
    (∀ d, d ∈ written →
       eventName d = emission_event e ∧ data d = emission_payload e ∧
       channel d = socket (objects (via d))) ∧
    (∀ c, delivered_to c written =
       if bool_decide
            (c ∈ connections_of U (run_calls calls new_EventRouter) ∧
             skip ≠ Some c ∧
             shouldSendToConnection (objects c)
               (default all_user_authenticated_connections f) = true)
       then 1 else 0).
Proof.
  set (r := run_calls calls new_EventRouter). intros Hsome Hfuel.
  assert (registry_ok r) as Hok by apply run_calls_ok, new_EventRouter_ok.
  exists (deliveries objects (emission_event e) (emission_payload e)
            (default all_user_authenticated_connections f) skip
            (connections_of U r)).
  split_and!.
  - rewrite emission_fire_and_forget by done.
    cbn [router wire diagnostics].
    unfold connections_of in Hsome. by destruct (getConnections U r).
  - intros d (Hd & _)%elem_of_deliveries. rewrite Hd. done.
  - intros c.
    destruct (decide (c ∈ connections_of U r)) as [Hin|Hout].
    + rewrite delivered_to_deliveries by (done || by apply connections_of_NoDup).
      destruct (decide (skip = Some c)) as [Hs|Hs].
      * rewrite (bool_decide_eq_true_2 _ Hs).
        by rewrite bool_decide_eq_false_2 by (by intros (_ & ? & _)).
      * rewrite (bool_decide_eq_false_2 _ Hs).
        destruct (shouldSendToConnection (objects c)
                    (default all_user_authenticated_connections f)).
        -- by rewrite bool_decide_eq_true_2.
        -- by rewrite bool_decide_eq_false_2 by (by intros (_ & _ & ?)).
    + rewrite delivered_to_deliveries_absent by done.
      by rewrite bool_decide_eq_false_2 by (by intros (? & _)).
Qed.

(** The same at work: an ephemeral event filtered for session [s1], the
    user-scoped connection 4 being the sender. *)
Lemma emission_delivers_by_filter_example :
  ∃ written : list Delivery,
    emission example_objects fire_and_forget 4 "u1"
      (call_emitEphemeral example_usage)
      (Some (all_interested_in_session "s1")) (Some 4)
      {| router := run_calls example_calls new_EventRouter;
         wire := []; diagnostics := [] |} =
    Some {| router := run_calls example_calls new_EventRouter;
            wire := [] ++ written; diagnostics := [] |} ∧
    (∀ d, d ∈ written →
       eventName d = emission_event (call_emitEphemeral example_usage) ∧
       data d = emission_payload (call_emitEphemeral example_usage) ∧
       channel d = socket (example_objects (via d))) ∧
    (∀ c, delivered_to c written =
       if bool_decide
            (c ∈ connections_of "u1" (run_calls example_calls new_EventRouter) ∧
             Some 4 ≠ Some c ∧
             shouldSendToConnection (example_objects c)
               (default all_user_authenticated_connections
                  (Some (all_interested_in_session "s1"))) = true)
       then 1 else 0).
Proof.
  apply (emission_delivers_by_filter example_objects example_calls "u1"
           (call_emitEphemeral example_usage)
           (Some (all_interested_in_session "s1")) (Some 4) 4 [] []).
  - vm_compute. discriminate.
  - vm_compute. lia.
Defined.

(** X9.  Over sockets that only queue, the writes of an emission are made in
    the order in which the connections were registered: the connections
    written through, in the order of the writes, are the user's connections
    in their order with some left out. *)
Theorem emission_follows_registration_order
    (objects : ConnRef → ClientConnection) (U : string) (e : Emission)
    (f : option RecipientFilter) (skip : option ConnRef) (fuel : nat) (w : World) :
  rounds U (router w) ≤ fuel →
  ∃ (w' : World) (written : list Delivery),
    emission objects fire_and_forget fuel U e f skip w = Some w' ∧
    wire w' = wire w ++ written ∧
    via <$> written `sublist_of` connections_of U (router w).
Proof.
  intros Hfuel. rewrite emission_fire_and_forget by done.
  destruct (getConnections U (router w)).
  - eexists _, _. split_and!; [done|done|]. apply via_deliveries_sublist.
  - eexists _, []. split_and!; [done| |apply sublist_nil_l].
    cbn. by rewrite app_nil_r.
Qed.

(** The same at work, for a [user-scoped-only] update. *)
Lemma emission_follows_registration_order_example :
  ∃ (w' : World) (written : list Delivery),
    emission example_objects fire_and_forget 4 "u1"
      (call_emitUpdate example_update) (Some user_scoped_only) None
      example_world = Some w' ∧
    wire w' = wire example_world ++ written ∧
    via <$> written `sublist_of` connections_of "u1" (router example_world).
Proof.
  apply (emission_follows_registration_order example_objects "u1"
           (call_emitUpdate example_update) (Some user_scoped_only) None 4
           example_world).
  vm_compute. lia.
Defined.

(** X10.  Over sockets that only queue, naming a sender to skip takes away
    the writes through that connection and changes nothing else: the other
    writes, their order, the registry and the log are the same as without
    a sender to skip. *)
Theorem skipSenderConnection_removes_only_the_sender
    (objects : ConnRef → ClientConnection) (U : string) (e : Emission)
    (f : option RecipientFilter) (sender : ConnRef) (fuel : nat) (w : World) :
  rounds U (router w) ≤ fuel →
  ∃ (w1 w2 : World) (written : list Delivery),
    emission objects fire_and_forget fuel U e f None w = Some w1 ∧
    emission objects fire_and_forget fuel U e f (Some sender) w = Some w2 ∧
    wire w1 = wire w ++ written ∧
    wire w2 = wire w ++ filter (λ d, via d ≠ sender) written ∧
    router w2 = router w1 ∧
    diagnostics w2 = diagnostics w1.
Proof.
  intros Hfuel. rewrite !emission_fire_and_forget by done.
  destruct (getConnections U (router w)).
  - eexists _, _, _. split_and!; try done.
    cbn [wire]. by rewrite deliveries_skip.
  - eexists _, _, []. split_and!; try done.
    + cbn. by rewrite app_nil_r.
    + cbn. by rewrite app_nil_r.
Qed.

(** The same at work: connection 1 as the sender. *)
Lemma skipSenderConnection_removes_only_the_sender_example :
  ∃ (w1 w2 : World) (written : list Delivery),
    emission example_objects fire_and_forget 4 "u1"
      (call_emitUpdate example_update) None None example_world = Some w1 ∧
    emission example_objects fire_and_forget 4 "u1"
      (call_emitUpdate example_update) None (Some 1) example_world = Some w2 ∧
    wire w1 = wire example_world ++ written ∧
    wire w2 = wire example_world ++ filter (λ d, via d ≠ 1) written ∧
    router w2 = router w1 ∧
    diagnostics w2 = diagnostics w1.
Proof.
  apply (skipSenderConnection_removes_only_the_sender example_objects "u1"
           (call_emitUpdate example_update) None 1 4 example_world).
  vm_compute. lia.
Defined.

(** ** Whatever the sockets do *)

Lemma emit_loop_permitted objects (react : Reaction) (l : SetRef) ev p f skip
    (fuel index : nat) (w w' : World) :
  emit_loop objects react fuel l index ev p f skip w = Some w' →
  ∃ written : list Delivery,
    wire w' = wire w ++ written ∧
    ∀ d, d ∈ written → permitted objects ev p f skip d.
Proof.
  revert index w. induction fuel as [|fuel IH]; intros index w Hrun; [done|].
  cbn [emit_loop] in Hrun.
  destruct (set_at (router w) l !! index) as [[c|]|].
  - case_bool_decide as Hs; [by eapply IH|].
    destruct (shouldSendToConnection (objects c) f) eqn:Hf; cbn [negb] in Hrun;
      [|by eapply IH].
    destruct (IH _ _ Hrun) as (written & Hwire & Hall).
    exists ({| via := c; channel := socket (objects c);
               eventName := ev; data := p |} :: written).
    cbn [socket_emit wire] in Hwire. split.
    + rewrite Hwire. by rewrite <- app_assoc.
    + intros d [->|Hd]%elem_of_cons; [|by apply Hall]. done.
  - by eapply IH.
  - injection Hrun as <-. exists []. split; [by rewrite app_nil_r|].
    by intros d ?%elem_of_nil.
Qed.

Lemma emission_permitted objects (react : Reaction) (U : string) (e : Emission)
    (f : option RecipientFilter) skip (fuel : nat) (w w' : World) :
  emission objects react fuel U e f skip w = Some w' →
  ∃ written : list Delivery,
    wire w' = wire w ++ written ∧
    ∀ d, d ∈ written →
      permitted objects (emission_event e) (emission_payload e)
        (default all_user_authenticated_connections f) skip d.
Proof.
  intros Hrun.
  assert (emit objects react fuel U (emission_event e) (emission_payload e)
            (default all_user_authenticated_connections f) skip w = Some w')
    as Hemit by by destruct e.
  unfold emit in Hemit.
  destruct (userConnections (router w) !! U) as [l|].
  - by eapply emit_loop_permitted.
  - injection Hemit as <-. exists []. split; [cbn; by rewrite app_nil_r|].
    by intros d ?%elem_of_nil.
Qed.

(** X11.  Whatever the sockets do to the registry while they are written to,
    an emission that returns has only added writes to the wire, and each of
    them carries the emission's tag and payload, is made on the socket of
    the connection it goes through, goes through a connection the filter
    accepts, and does not go through the sender to skip. *)
Theorem emission_never_oversteps
    (objects : ConnRef → ClientConnection) (react : Reaction)
    (U : string) (e : Emission) (f : option RecipientFilter)
    (skip : option ConnRef) (fuel : nat) (w w' : World) :
  emission objects react fuel U e f skip w = Some w' →
  ∃ written : list Delivery,
    wire w' = wire w ++ written ∧
    ∀ d, d ∈ written →
      eventName d = emission_event e ∧
      data d = emission_payload e ∧
      channel d = socket (objects (via d)) ∧
      skip ≠ Some (via d) ∧
      shouldSendToConnection (objects (via d))
        (default all_user_authenticated_connections f) = true.
Proof.
  intros (written & Hwire & Hall)%emission_permitted.
  exists written. split; [done|]. intros d Hd.
  destruct (Hall d Hd) as (Heq & Hs & Hf). rewrite Heq. done.
Qed.

(** The same at work: sockets that disconnect connection 2 during the loop. *)
Lemma emission_never_oversteps_example :
  ∃ written : list Delivery,
    wire (default example_world
            (emission example_objects example_disconnecting 4 "u1"
               (call_emitUpdate example_update) None (Some 4) example_world)) =
    wire example_world ++ written ∧
    ∀ d, d ∈ written →
      eventName d = emission_event (call_emitUpdate example_update) ∧
      data d = emission_payload (call_emitUpdate example_update) ∧
      channel d = socket (example_objects (via d)) ∧
      Some 4 ≠ Some (via d) ∧
      shouldSendToConnection (example_objects (via d))
        (default all_user_authenticated_connections None) = true.
Proof.
  apply (emission_never_oversteps example_objects example_disconnecting "u1"
           (call_emitUpdate example_update) None (Some 4) 4 example_world).
  reflexivity.
Defined.

(** X12.  Whatever the sockets do to the registry while they are written to,
    a [user-scoped-only] emission that returns has written through user-scoped
    connections only, and an emission for the session [sid] has written
    through user-scoped connections and through session-scoped connections
    of that session only, never through a machine-scoped connection or a
    connection of another session. *)
Theorem scoped_emission_stays_in_scope
    (objects : ConnRef → ClientConnection) (react : Reaction)
    (U : string) (e : Emission) (f : RecipientFilter)
    (skip : option ConnRef) (fuel : nat) (w w' : World) :
  emission objects react fuel U e (Some f) skip w = Some w' →
  ∃ written : list Delivery,
    wire w' = wire w ++ written ∧
    ∀ d, d ∈ written →
      match f with
      | user_scoped_only => connectionType (objects (via d)) = user_scoped
      | all_interested_in_session sid =>
          match objects (via d) with
          | SessionScopedConnection _ _ csid => csid = sid
          | UserScopedConnection _ _ => True
          | MachineScopedConnection _ _ _ => False
          end
      | all_user_authenticated_connections => True
      end.
Proof.
  intros (written & Hwire & Hall)%emission_permitted.
  exists written. split; [done|]. intros d Hd.
  destruct (Hall d Hd) as (_ & _ & Hf). cbn [default from_option] in Hf.
  destruct f as [sid| |]; [| |done].
  - destruct (objects (via d)) as [s u csid|s u|s u m]; cbn in Hf; [|done|done].
    case_bool_decide as Hne; [done|].
    destruct (decide (csid = sid)); [done|contradiction].
  - cbn in Hf. by apply bool_decide_eq_true in Hf.
Qed.

(** The same at work: an update for session [s1], with the machine-scoped
    connection 3 registered as well. *)
Lemma scoped_emission_stays_in_scope_example :
  ∃ written : list Delivery,
    wire (default example_world
            (emission example_objects example_disconnecting 5 "u1"
               (call_emitUpdate example_update)
               (Some (all_interested_in_session "s1")) None
               {| router := addConnection "u1" 3 (router example_world);
                  wire := []; diagnostics := [] |})) =
    wire {| router := addConnection "u1" 3 (router example_world);
            wire := []; diagnostics := [] |} ++ written ∧
    ∀ d, d ∈ written →
      match example_objects (via d) with
      | SessionScopedConnection _ _ csid => csid = "s1"
      | UserScopedConnection _ _ => True
      | MachineScopedConnection _ _ _ => False
      end.
Proof.
  apply (scoped_emission_stays_in_scope example_objects example_disconnecting "u1"
           (call_emitUpdate example_update) (all_interested_in_session "s1") None 5
           {| router := addConnection "u1" 3 (router example_world);
              wire := []; diagnostics := [] |}).
  reflexivity.
Defined.

(** ** Routing reads the kind, the session and the socket of a connection *)

Lemma shouldSendToConnection_without_owner (c : ClientConnection) (f : RecipientFilter) :
  shouldSendToConnection (without_owner c) f = shouldSendToConnection c f.
Proof. by destruct c, f. Qed.

Lemma socket_without_owner (c : ClientConnection) :
  socket (without_owner c) = socket c.
Proof. by destruct c. Qed.

Lemma emit_loop_without_owner objects (react : Reaction) (l : SetRef) ev p f skip
    (fuel index : nat) (w : World) :
  emit_loop (λ c, without_owner (objects c)) react fuel l index ev p f skip w =
  emit_loop objects react fuel l index ev p f skip w.
Proof.
  revert index w. induction fuel as [|fuel IH]; intros index w; [done|].
  cbn [emit_loop].
  destruct (set_at (router w) l !! index) as [[c|]|]; [|by apply IH|done].
  rewrite shouldSendToConnection_without_owner.
  destruct (bool_decide (skip = Some c)); [by apply IH|].
  destruct (shouldSendToConnection (objects c) f); cbn [negb]; [|by apply IH].
  rewrite IH. unfold socket_emit. by rewrite socket_without_owner.
Qed.

(** X13.  Routing never reads the [userId] or the [machineId] a connection
    carries: whatever the sockets do, an emission has the same outcome
    (result, wire, registry and log) when these fields of every connection
    are blanked.  The user an emission reaches a connection for is the one
    [addConnection] was given. *)
Theorem emission_ignores_owner_fields
    (objects : ConnRef → ClientConnection) (react : Reaction)
    (U : string) (e : Emission) (f : option RecipientFilter)
    (skip : option ConnRef) (fuel : nat) (w : World) :
  emission (λ c, without_owner (objects c)) react fuel U e f skip w =
  emission objects react fuel U e f skip w.
Proof.
  destruct e; cbn [emission]; unfold emitUpdate, emitEphemeral, emit;
    destruct (userConnections (router w) !! U); try done;
    apply emit_loop_without_owner.
Qed.

(** * Further properties of the filter *)

Lemma deliveries_narrower objects ev p (f1 f2 : RecipientFilter) skip
    (cs : list ConnRef) :
  (∀ c, shouldSendToConnection (objects c) f1 = true →
        shouldSendToConnection (objects c) f2 = true) →
  via <$> deliveries objects ev p f1 skip cs
    `sublist_of` via <$> deliveries objects ev p f2 skip cs.
Proof.
  intros Himp. induction cs as [|x cs IH]; [constructor|].
  rewrite !deliveries_cons.
  destruct (bool_decide (skip = Some x)); [done|].
  pose proof (Himp x) as Hx.
  destruct (shouldSendToConnection (objects x) f1),
           (shouldSendToConnection (objects x) f2); cbn [negb].
  - by constructor.
  - by discriminate Hx.
  - by constructor.
  - done.
Qed.

Lemma user_scoped_only_narrower (c : ClientConnection) (sid : string) :
  shouldSendToConnection c user_scoped_only = true →
  shouldSendToConnection c (all_interested_in_session sid) = true.
Proof. by destruct c. Qed.

(** X14.  The three filters are nested.  Over sockets that only queue and for
    the same user, payload and sender to skip, the connections a
    [user-scoped-only] emission writes through are among those an emission
    for any session writes through, which are among those an emission
    without a filter writes through, in the same order. *)
Theorem filters_are_nested
    (objects : ConnRef → ClientConnection) (U : string) (e : Emission)
    (sid : string) (skip : option ConnRef) (fuel : nat) (w : World) :
  rounds U (router w) ≤ fuel →
  ∃ (w1 w2 w3 : World) (narrow middle wide : list Delivery),
    emission objects fire_and_forget fuel U e (Some user_scoped_only) skip w
      = Some w1 ∧
    emission objects fire_and_forget fuel U e
      (Some (all_interested_in_session sid)) skip w = Some w2 ∧
    emission objects fire_and_forget fuel U e None skip w = Some w3 ∧
    wire w1 = wire w ++ narrow ∧
    wire w2 = wire w ++ middle ∧
    wire w3 = wire w ++ wide ∧
    via <$> narrow `sublist_of` via <$> middle ∧
    via <$> middle `sublist_of` via <$> wide.
Proof.
  intros Hfuel. rewrite !emission_fire_and_forget by done.
  destruct (getConnections U (router w)).
  - eexists _, _, _, _, _, _. split_and!; try done.
    + apply deliveries_narrower. intros c. apply user_scoped_only_narrower.
    + by apply deliveries_narrower.
  - eexists _, _, _, [], [], [].
    split_and!; try done; cbn; by rewrite app_nil_r.
Qed.

(** The same at work, with the machine-scoped connection 3 registered as
    well. *)
Lemma filters_are_nested_example :
  ∃ (w1 w2 w3 : World) (narrow middle wide : list Delivery),
    emission example_objects fire_and_forget 5 "u1"
      (call_emitUpdate example_update) (Some user_scoped_only) None
      {| router := addConnection "u1" 3 (router example_world);
         wire := []; diagnostics := [] |} = Some w1 ∧
    emission example_objects fire_and_forget 5 "u1"
      (call_emitUpdate example_update) (Some (all_interested_in_session "s2")) None
      {| router := addConnection "u1" 3 (router example_world);
         wire := []; diagnostics := [] |} = Some w2 ∧
    emission example_objects fire_and_forget 5 "u1"
      (call_emitUpdate example_update) None None
      {| router := addConnection "u1" 3 (router example_world);
         wire := []; diagnostics := [] |} = Some w3 ∧
    wire w1 = [] ++ narrow ∧
    wire w2 = [] ++ middle ∧
    wire w3 = [] ++ wide ∧
    via <$> narrow `sublist_of` via <$> middle ∧
    via <$> middle `sublist_of` via <$> wide.
Proof.
  apply (filters_are_nested example_objects "u1" (call_emitUpdate example_update)
           "s2" None 5
           {| router := addConnection "u1" 3 (router example_world);
              wire := []; diagnostics := [] |}).
  vm_compute. lia.
Defined.

(** X15.  On the object of a value of the filter type the [switch] decides as
    the table says; on a filter object whose [type] is none of the three it
    knows, it refuses every connection; and on a filter for a session that
    carries no [sessionId] it accepts the user-scoped connections only. *)
Theorem shouldSendToConnection_fails_closed :
  (∀ (c : ClientConnection) (f : RecipientFilter),
     shouldSendToConnection_object c (filter_object f) =
     shouldSendToConnection c f) ∧
  (∀ (c : ClientConnection) (o : FilterObject),
     filter_type o ≠ "all-interested-in-session" →
     filter_type o ≠ "user-scoped-only" →
     filter_type o ≠ "all-user-authenticated-connections" →
     shouldSendToConnection_object c o = false) ∧
  (∀ c : ClientConnection,
     shouldSendToConnection_object c
       {| filter_type := "all-interested-in-session"; filter_sessionId := None |} =
     bool_decide (connectionType c = user_scoped)).
Proof.
  split_and!.
  - intros c [sid| |]; unfold shouldSendToConnection_object;
      cbn [filter_object filter_type filter_sessionId shouldSendToConnection].
    + rewrite (bool_decide_eq_true_2 ("all-interested-in-session" = _)) by done.
      destruct c as [s u csid|s u|s u m]; [|done|done].
      destruct (decide (csid = sid)) as [->|Hne].
      * rewrite (bool_decide_eq_false_2 (Some sid ≠ Some sid))
          by (intros H; by apply H).
        by rewrite (bool_decide_eq_false_2 (sid ≠ sid)) by (intros H; by apply H).
      * rewrite (bool_decide_eq_true_2 (Some csid ≠ Some sid)) by congruence.
        by rewrite (bool_decide_eq_true_2 (csid ≠ sid)).
    + rewrite (bool_decide_eq_false_2 (_ = "all-interested-in-session")) by done.
      by rewrite (bool_decide_eq_true_2 ("user-scoped-only" = _)) by done.
    + rewrite (bool_decide_eq_false_2 (_ = "all-interested-in-session")) by done.
      rewrite (bool_decide_eq_false_2 (_ = "user-scoped-only")) by done.
      by rewrite bool_decide_eq_true_2 by done.
  - intros c o H1 H2 H3. unfold shouldSendToConnection_object.
    by rewrite !bool_decide_eq_false_2 by done.
  - intros c. unfold shouldSendToConnection_object.
    cbn [filter_type filter_sessionId].
    rewrite (bool_decide_eq_true_2 ("all-interested-in-session" = _)) by done.
    destruct c as [s u csid|s u|s u m]; [|done|done].
    by rewrite bool_decide_eq_true_2 by done.
Qed.

(** The same at work: a filter object of an unknown kind. *)
Lemma shouldSendToConnection_fails_closed_example :
  shouldSendToConnection_object (UserScopedConnection 4 "u1")
    {| filter_type := "everyone"; filter_sessionId := None |} = false.
Proof.
  apply (proj1 (proj2 shouldSendToConnection_fails_closed)
           (UserScopedConnection 4 "u1")
           {| filter_type := "everyone"; filter_sessionId := None |});
    cbn; discriminate.
Defined.

(** * Further properties of the builders *)

Lemma js_string_or_null_inj (o1 o2 : option string) :
  js_string_or_null o1 = js_string_or_null o2 → o1 = o2.
Proof. destruct o1, o2; cbn; congruence. Qed.

Lemma getTime_inj (d1 d2 : Date) : getTime d1 = getTime d2 → d1 = d2.
Proof. destruct d1, d2; cbn; congruence. Qed.

(** X16.  The payload [buildNewSessionUpdate] returns holds everything it was
    given: payloads built from different session records, sequence numbers,
    ids or clock readings are different. *)
Theorem buildNewSessionUpdate_injective
    (s1 s2 : SessionRecord) (seq1 seq2 : float) (id1 id2 : string)
    (now1 now2 : float) :
  buildNewSessionUpdate s1 seq1 id1 now1 = buildNewSessionUpdate s2 seq2 id2 now2 →
  s1 = s2 ∧ seq1 = seq2 ∧ id1 = id2 ∧ now1 = now2.
Proof.
  unfold buildNewSessionUpdate. intros Heq.
  injection Heq as Hid Hseq Hsid Hsseq Hmeta Hmv Hagent Hav Hact Hla Hca Hua Hnow.
  apply js_string_or_null_inj in Hagent.
  apply getTime_inj in Hla, Hca, Hua.
  destruct s1, s2; cbn in *. by subst.
Qed.

(** The same at work. *)
Lemma buildNewSessionUpdate_injective_example :
  {| session_id := "s1"; session_seq := 1%float; session_metadata := "m";
     session_metadataVersion := 2%float; session_agentState := None;
     session_agentStateVersion := 0%float; session_active := true;
     session_lastActiveAt := {| getTime := 5%float |};
     session_createdAt := {| getTime := 3%float |};
     session_updatedAt := {| getTime := 4%float |} |} =
  {| session_id := "s1"; session_seq := 1%float; session_metadata := "m";
     session_metadataVersion := 2%float; session_agentState := None;
     session_agentStateVersion := 0%float; session_active := true;
     session_lastActiveAt := {| getTime := 5%float |};
     session_createdAt := {| getTime := 3%float |};
     session_updatedAt := {| getTime := 4%float |} |} ∧
  7%float = 7%float ∧ "upd-1" = "upd-1" ∧ 9%float = 9%float.
Proof.
  apply (buildNewSessionUpdate_injective _ _ 7%float 7%float "upd-1" "upd-1"
           9%float 9%float).
  reflexivity.
Defined.

(** X17.  The payload [buildNewMessageUpdate] returns holds everything it was
    given: payloads built from different message records, session ids,
    sequence numbers, ids or clock readings are different. *)
Theorem buildNewMessageUpdate_injective
    (m1 m2 : MessageRecord) (sid1 sid2 : string) (seq1 seq2 : float)
    (id1 id2 : string) (now1 now2 : float) :
  buildNewMessageUpdate m1 sid1 seq1 id1 now1 =
  buildNewMessageUpdate m2 sid2 seq2 id2 now2 →
  m1 = m2 ∧ sid1 = sid2 ∧ seq1 = seq2 ∧ id1 = id2 ∧ now1 = now2.
Proof.
  unfold buildNewMessageUpdate. intros Heq.
  injection Heq as Hid Hseq Hsid Hmid Hmseq Hcontent Hlocal Hca Hua Hnow.
  apply js_string_or_null_inj in Hlocal.
  apply getTime_inj in Hca, Hua.
  destruct m1, m2; cbn in *. by subst.
Qed.

(** The same at work. *)
Lemma buildNewMessageUpdate_injective_example :
  example_message = example_message ∧ "s1" = "s1" ∧ 8%float = 8%float ∧
  "upd-2" = "upd-2" ∧ 9%float = 9%float.
Proof.
  apply (buildNewMessageUpdate_injective example_message example_message
           "s1" "s1" 8%float 8%float "upd-2" "upd-2" 9%float 9%float).
  reflexivity.
Defined.

(** [buildSessionActivityEphemeral] always carries a boolean [thinking]:
    the one it was given, and [false] when the argument is left out, so that
    leaving it out and passing [false] give the same payload. *)
Theorem buildSessionActivityEphemeral_thinking
    (sessionId : string) (active : bool) (activeAt : float) :
  (∀ thinking : option bool,
     property "thinking"
       (buildSessionActivityEphemeral sessionId active activeAt thinking) =
     Some (js_boolean (default false thinking))) ∧
  buildSessionActivityEphemeral sessionId active activeAt None =
  buildSessionActivityEphemeral sessionId active activeAt (Some false).
Proof. split; [by intros [[]|]|done]. Qed.

(** * Emission over sockets that react *)

(** ** When the sockets leave the set of the user alone *)

Lemma reactions_cons (react : Reaction) (d : Delivery) (ds : list Delivery)
    (r : EventRouter) :
  reactions react (d :: ds) r =
  reactions react ds (react (channel d) (eventName d) (data d) r).
Proof. done. Qed.

Lemma reactions_fire_and_forget (ds : list Delivery) (r : EventRouter) :
  reactions fire_and_forget ds r = r.
Proof. induction ds as [|d ds IH]; [done|]. by rewrite reactions_cons. Qed.

Lemma undisturbed_fire_and_forget (l : SetRef) (ds : list Delivery) (r : EventRouter) :
  undisturbed fire_and_forget l ds r.
Proof. intros k. by rewrite reactions_fire_and_forget. Qed.











(** ** When the sockets call the mutators *)

Lemma emit_loop_members objects (react : Reaction) (l : SetRef) ev p f skip
    (J : EventRouter → Prop) (Q : ConnRef → Prop) :
  (∀ s e q r, J r → J (react s e q r)) →
  (∀ r c, J r → c ∈ set_values (set_at r l) → Q c) →
  ∀ (fuel index : nat) (w w' : World),
    J (router w) →
    emit_loop objects react fuel l index ev p f skip w = Some w' →
    ∃ written : list Delivery,
      wire w' = wire w ++ written ∧ ∀ d, d ∈ written → Q (via d).
Proof.
  intros Hkeep Hmember fuel.
  induction fuel as [|fuel IH]; intros index w w' HJ Hrun; [done|].
  cbn [emit_loop] in Hrun.
  destruct (set_at (router w) l !! index) as [[c|]|] eqn:He.
  - destruct (bool_decide (skip = Some c)); [by eapply IH|].
    destruct (shouldSendToConnection (objects c) f); cbn [negb] in Hrun;
      [|by eapply IH].
    assert (Q c) as HQ.
    { apply (Hmember (router w)); [done|].
      apply elem_of_set_values, list_elem_of_lookup. by exists index. }
    assert (J (router (socket_emit objects react c ev p w))) as HJ'
      by (cbn [socket_emit router]; by apply Hkeep).
    destruct (IH _ _ _ HJ' Hrun) as (written & Hwire & Hall).
    exists ({| via := c; channel := socket (objects c);
               eventName := ev; data := p |} :: written).
    cbn [socket_emit wire] in Hwire. split.
    + rewrite Hwire. by rewrite <- app_assoc.
    + intros d [->|Hd]%elem_of_cons; [done|by apply Hall].
  - by eapply IH.
  - injection Hrun as <-. exists []. split; [by rewrite app_nil_r|].
    by intros d ?%elem_of_nil.
Qed.

Lemma delivered_to_none (c : ConnRef) (ds : list Delivery) :
  (∀ d, d ∈ ds → via d ≠ c) → delivered_to c ds = 0.
Proof.
  intros Hall. unfold delivered_to.
  induction ds as [|d ds IH]; [done|].
  rewrite filter_cons_False by (apply Hall; by left).
  apply IH. intros d' Hd'. apply Hall. by right.
Qed.

Lemma kept_out_run_call (U : string) (C : ConnRef) (l : SetRef)
    (call : RegistryCall) (r : EventRouter) :
  registers U C call = false →
  kept_out U C l r → kept_out U C l (run_call call r).
Proof.
  intros Hcall (Hok & Hl & Hout & Hsep).
  destruct call as [u k|u k]; cbn [run_call registers] in *.
  - apply bool_decide_eq_false in Hcall.
    split_and!; [by apply addConnection_ok| | |].
    + rewrite addConnection_eq.
      destruct (userConnections r !! u); cbn [sets];
        rewrite ?length_alter, ?length_app; lia.
    + rewrite addConnection_eq.
      destruct (userConnections r !! u) as [l'|] eqn:Hu.
      * destruct (decide (l' = l)) as [->|Hne].
        -- rewrite set_at_alter_eq by done. rewrite <- set_at_eta.
           rewrite set_values_add. case_bool_decide; [done|].
           rewrite elem_of_app, list_elem_of_singleton.
           intros [?| ->]; [done|]. apply Hcall. split; [by apply Hsep|done].
        -- rewrite set_at_alter_ne by done. by rewrite <- set_at_eta.
      * rewrite (set_at_app_l _ (userConnections r)) by done.
        by rewrite <- set_at_eta.
    + intros u'. rewrite addConnection_eq.
      destruct (userConnections r !! u) as [l'|] eqn:Hu; cbn [userConnections];
        [by apply Hsep|].
      rewrite lookup_insert. case_decide; [|by apply Hsep].
      intros [= Heq]. lia.
  - split_and!; [by apply removeConnection_ok| | |].
    + rewrite removeConnection_eq by done.
      destruct (userConnections r !! u); [|done].
      case_bool_decide; cbn [sets]; by rewrite length_alter.
    + rewrite removeConnection_eq by done.
      destruct (userConnections r !! u) as [l'|] eqn:Hu; [|done].
      assert (C ∉ set_values
                (set_at {| userConnections := userConnections r;
                           sets := alter (set_delete k) l' (sets r) |} l)) as Hgoal.
      { destruct (decide (l' = l)) as [->|Hne].
        - rewrite set_at_alter_eq by done. rewrite <- set_at_eta.
          rewrite set_values_delete, list_elem_of_filter. by intros [_ ?].
        - rewrite set_at_alter_ne by done. by rewrite <- set_at_eta. }
      by case_bool_decide.
    + intros u' Hu'. apply Hsep.
      assert (userConnections (removeConnection u k r) ⊆ userConnections r) as Hsub.
      { rewrite removeConnection_eq by done.
        destruct (userConnections r !! u); [|done].
        case_bool_decide; cbn [userConnections]; [apply delete_subseteq|done]. }
      by eapply lookup_weaken.
Qed.

Lemma kept_out_run_calls (U : string) (C : ConnRef) (l : SetRef)
    (cs : list RegistryCall) (r : EventRouter) :
  forallb (λ call, negb (registers U C call)) cs = true →
  kept_out U C l r → kept_out U C l (run_calls cs r).
Proof.
  revert r. induction cs as [|call cs IH]; intros r Hcs Hr; [done|].
  cbn [forallb] in Hcs. apply andb_prop in Hcs as [Hcall Hcs].
  apply negb_true_iff in Hcall.
  change (run_calls (call :: cs) r) with (run_calls cs (run_call call r)).
  apply IH; [done|]. by apply kept_out_run_call.
Qed.

(** C4.  In a registry built by [addConnection] and [removeConnection]:
    after [removeConnection(U, C)], and whatever registry calls follow and
    whatever calls of the mutators the sockets make while they are written
    to, as long as none of them registers [C] under [U] again, an emission
    to [U] with any filter and any sender to skip writes nothing through
    [C]; over sockets that only queue it also returns; and if [C] was the only
    connection of [U], then [getConnections(U)] answers [undefined], also
    after further registry calls that register nothing under [U]. *)
Theorem removeConnection_ends_delivery
    (objects : ConnRef → ClientConnection) (calls later : list RegistryCall)
    (U : string) (C : ConnRef) :
  (∀ (h : Handler) (e : Emission) (f : option RecipientFilter)
     (skip : option ConnRef) (fuel : nat)
     (wire0 : list Delivery) (log0 : list LogEntry) (w' : World),
     forallb (λ call, negb (registers U C call)) later = true →
     (∀ s ev q r, forallb (λ call, negb (registers U C call)) (h s ev q r) = true) →
     emission objects (reaction_of h) fuel U e f skip
       {| router := run_calls later
                      (removeConnection U C (run_calls calls new_EventRouter));
          wire := wire0; diagnostics := log0 |} = Some w' →
     ∃ written : list Delivery,
       wire w' = wire0 ++ written ∧
       (∀ d, d ∈ written → via d ≠ C) ∧
       delivered_to C written = 0) ∧
  (∀ (e : Emission) (f : option RecipientFilter) (skip : option ConnRef)
     (fuel : nat) (wire0 : list Delivery) (log0 : list LogEntry),
     forallb (λ call, negb (registers U C call)) later = true →
     rounds U (run_calls later
                 (removeConnection U C (run_calls calls new_EventRouter))) ≤ fuel →
     ∃ (w' : World) (written : list Delivery),
       emission objects fire_and_forget fuel U e f skip
         {| router := run_calls later
                        (removeConnection U C (run_calls calls new_EventRouter));
            wire := wire0; diagnostics := log0 |} = Some w' ∧
       wire w' = wire0 ++ written ∧
       delivered_to C written = 0 ∧
       (owns_socket objects
          (connections_of U
             (run_calls later
                (removeConnection U C (run_calls calls new_EventRouter)))) C →
        written_on (socket (objects C)) written = 0)) ∧
  (connections_of U (run_calls calls new_EventRouter) = [C] →
   forallb (λ call, negb (registers_under U call)) later = true →
   getConnections U
     (run_calls later (removeConnection U C (run_calls calls new_EventRouter))) = None).
Proof.
  set (r := run_calls calls new_EventRouter).
  assert (registry_ok r) as Hok by apply run_calls_ok, new_EventRouter_ok.
  split_and!.
  - intros h e f skip fuel wire0 log0 w' Hlater Hh Hrun.
    set (r' := run_calls later (removeConnection U C r)) in *.
    assert (registry_ok r') as Hok'
      by by apply run_calls_ok, removeConnection_ok.
    assert (C ∉ connections_of U r') as Hout.
    { apply removed_stays_out; [by apply removeConnection_ok| |done].
      by apply removeConnection_removes. }
    assert (emit objects (reaction_of h) fuel U (emission_event e)
              (emission_payload e)
              (default all_user_authenticated_connections f) skip
              {| router := r'; wire := wire0; diagnostics := log0 |} = Some w')
      as Hemit by by destruct e.
    unfold emit in Hemit. cbn [router] in Hemit.
    destruct (userConnections r' !! U) as [l|] eqn:Hl.
    + assert (kept_out U C l r') as Hkept.
      { split_and!; [done|by eapply ok_allocated| |].
        - unfold connections_of, getConnections in Hout. by rewrite Hl in Hout.
        - intros u Hu. by eapply ok_separate. }
      destruct (emit_loop_members objects (reaction_of h) l
                  (emission_event e) (emission_payload e)
                  (default all_user_authenticated_connections f) skip
                  (kept_out U C l) (λ c, c ≠ C)) with
        (fuel := fuel) (index := 0)
        (w := {| router := r'; wire := wire0; diagnostics := log0 |}) (w' := w')
        as (written & Hwire & Hall); [| |done|done|].
      * intros s ev q r0 Hr0. unfold reaction_of. by apply kept_out_run_calls.
      * intros r0 c (_ & _ & Hc & _) Hin ->. done.
      * exists written. split_and!; [done|done|by apply delivered_to_none].
    + injection Hemit as <-. exists [].
      split_and!; [cbn; by rewrite app_nil_r|by intros d ?%elem_of_nil|done].
  - intros e f skip fuel wire0 log0 Hlater Hfuel.
    set (r' := run_calls later (removeConnection U C r)) in *.
    assert (C ∉ connections_of U r') as Hout.
    { apply removed_stays_out; [by apply removeConnection_ok| |done].
      by apply removeConnection_removes. }
    rewrite emission_fire_and_forget by done. cbn [router wire diagnostics].
    destruct (getConnections U r').
    + eexists _, _. split_and!; [done|done| |].
      * by apply delivered_to_deliveries_absent.
      * intros Hown. rewrite written_on_deliveries by done.
        by apply delivered_to_deliveries_absent.
    + exists (log_warn ("No connections found for user " +:+ U)
                {| router := r'; wire := wire0; diagnostics := log0 |}), [].
      split_and!; [done| |done|done]. cbn. by rewrite app_nil_r.
  - intros Honly Hlater. apply absent_stays_absent; [|done].
    by apply removeConnection_last.
Qed.

(** The same at work: connection 2 removed from user [u1], then an emission
    over sockets that register connection 7 under [u1] while connection 1 is
    written to; connection 4 removed from [u1] and registered under another
    user afterwards, over sockets that only queue; and connection 6,
    registered twice under [u9] and its only connection, removed. *)
Lemma removeConnection_ends_delivery_example :
  (∃ written : list Delivery,
     wire (default example_world
             (emission example_objects (reaction_of example_connect_handler) 5 "u1"
                (call_emitUpdate example_update) None None
                {| router := run_calls []
                               (removeConnection "u1" 2
                                  (run_calls example_calls new_EventRouter));
                   wire := []; diagnostics := [] |})) = [] ++ written ∧
     (∀ d, d ∈ written → via d ≠ 2) ∧
     delivered_to 2 written = 0) ∧
  (∃ (w' : World) (written : list Delivery),
     emission example_objects fire_and_forget 5 "u1"
       (call_emitEphemeral example_usage) (Some user_scoped_only) None
       {| router := run_calls [call_addConnection "u1" 5; call_addConnection "u2" 4]
                      (removeConnection "u1" 4 (run_calls example_calls new_EventRouter));
          wire := []; diagnostics := [] |} = Some w' ∧
     wire w' = [] ++ written ∧
     delivered_to 4 written = 0 ∧
     (owns_socket example_objects
        (connections_of "u1"
           (run_calls [call_addConnection "u1" 5; call_addConnection "u2" 4]
              (removeConnection "u1" 4 (run_calls example_calls new_EventRouter)))) 4 →
      written_on (socket (example_objects 4)) written = 0)) ∧
  getConnections "u9"
    (run_calls [call_addConnection "u1" 5; call_removeConnection "u9" 6]
       (removeConnection "u9" 6
          (run_calls [call_addConnection "u9" 6; call_addConnection "u9" 6]
             new_EventRouter))) = None.
Proof.
  split_and!.
  - apply (proj1 (removeConnection_ends_delivery example_objects example_calls
                    [] "u1" 2)
             example_connect_handler (call_emitUpdate example_update) None None 5
             [] []).
    + reflexivity.
    + intros s ev q r. unfold example_connect_handler.
      by destruct (bool_decide (s = 1)).
    + reflexivity.
  - apply (proj1 (proj2 (removeConnection_ends_delivery example_objects example_calls
                    [call_addConnection "u1" 5; call_addConnection "u2" 4] "u1" 4))).
    + reflexivity.
    + vm_compute. lia.
  - apply (proj2 (proj2 (removeConnection_ends_delivery example_objects
                    [call_addConnection "u9" 6; call_addConnection "u9" 6]
                    [call_addConnection "u1" 5; call_removeConnection "u9" 6] "u9" 6))).
    + reflexivity.
    + reflexivity.
Defined.

(** The emission of that example does reach the connection registered during
    the loop. *)
Example scenario_after_removal_over_reacting_sockets :
  (λ w, via <$> wire w) <$>
    emission example_objects (reaction_of example_connect_handler) 5 "u1"
      (call_emitUpdate example_update) None None
      {| router := removeConnection "u1" 2 (router example_world);
         wire := []; diagnostics := [] |} = Some [1; 4; 7].
Proof. reflexivity. Qed.

(** ** When the sockets only disconnect *)

















(** In that example the writes go through connections 1 and 4, and these are
    the connections the user has afterwards. *)
Example scenario_disconnect_handler :
  (λ w, (via <$> wire w, connections_of "u1" (router w))) <$>
    emission example_objects (reaction_of example_disconnect_handler) 4 "u1"
      (call_emitUpdate example_update) None None example_world
  = Some ([1; 4], [1; 4]).
Proof. reflexivity. Qed.
